(** * Panopto index connector: the incremental synchronisation engine

    A shallow embedding of [src/panoptoindexconnector/connector.py]: the
    checkpoint file ([get_last_update_time], [save_last_update_time]), one
    synchronisation pass ([sync], [sync_video_by_id], [get_ids_to_update],
    [get_oauth_token]) and the polling loop ([run], [wait]).

    Python values are modelled as follows.
    - [str] is [string] (ASCII text).
    - a [datetime] is a record of its seven fields and its [tzinfo], the
      UTC offset of an aware value and [None] for a naive one; the range
      checks of the constructor are [valid_fields], and [valid_datetime]
      tells the naive values that pass them; ordering is by [to_micro], the
      number of microseconds since 0001-01-01T00:00:00.
    - a [timedelta] is a number of microseconds in [Z].
    - an exception is a value of [exn]; a call that may raise returns a
      [result].
    - everything outside the process (the Panopto site, the target index,
      the clock) is an abstract [World] reached through the calls of an
      [Env]; the checkpoint files are a finite map from paths to contents;
      the calls a pass makes are recorded, in order, in a trace. *)

From Stdlib Require Import ZArith Lia Ascii String List Bool.
From stdpp Require Import base option gmap strings.

Import ListNotations.
Local Open Scope list_scope.
Local Open Scope Z_scope.

(** ** Text *)

Module Text.

Definition LF : ascii := "010"%char.
Definition CR : ascii := "013"%char.

Definition ascii_eqb (a b : ascii) : bool := Ascii.eqb a b.

(** [str.isspace] on one ASCII character. *)
Definition is_space (c : ascii) : bool :=
  let n := nat_of_ascii c in
  ((9 <=? n) && (n <=? 13) || (28 <=? n) && (n <=? 32))%nat.

Definition is_digit (c : ascii) : bool :=
  let n := nat_of_ascii c in ((48 <=? n) && (n <=? 57))%nat.

Definition digit_val (c : ascii) : Z := Z.of_nat (nat_of_ascii c) - 48.

Definition digit_char (d : Z) : ascii := ascii_of_nat (Z.to_nat (48 + d)).

Fixpoint lstrip (s : string) : string :=
  match s with
  | String c rest => if is_space c then lstrip rest else s
  | EmptyString => EmptyString
  end.

Fixpoint rstrip (s : string) : string :=
  match s with
  | String c rest =>
      match rstrip rest with
      | EmptyString => if is_space c then EmptyString else String c EmptyString
      | r => String c r
      end
  | EmptyString => EmptyString
  end.

(** [s.strip()] *)
Definition strip (s : string) : string := rstrip (lstrip s).

(** [s.split(sep)[0]]: the text before the first [sep], all of [s] when
    [sep] does not occur. *)
Fixpoint split_head (sep : ascii) (s : string) : string :=
  match s with
  | String c rest => if ascii_eqb c sep then EmptyString else String c (split_head sep rest)
  | EmptyString => EmptyString
  end.

(** [file_handle.readlines()] of a file opened in text mode: lines end at
    LF, CR or CR LF, each read back as LF and kept at the end of its line;
    a last line without a terminator is returned as it is. *)
Fixpoint readlines (s : string) : list string :=
  match s with
  | EmptyString => []
  | String c rest =>
      if ascii_eqb c LF then String LF EmptyString :: readlines rest
      else if ascii_eqb c CR then
        match rest with
        | String c' rest' =>
            if ascii_eqb c' LF then String LF EmptyString :: readlines rest'
            else String LF EmptyString :: readlines rest
        | EmptyString => [String LF EmptyString]
        end
      else
        match readlines rest with
        | [] => [String c EmptyString]
        | l :: ls => String c l :: ls
        end
  end.

(** Every character of [s] satisfies [p]. *)
Fixpoint all_chars (p : ascii -> bool) (s : string) : bool :=
  match s with
  | String c rest => p c && all_chars p rest
  | EmptyString => true
  end.

(** No character of [s] ends a line. *)
Definition no_newline (s : string) : bool :=
  all_chars (fun c => negb (ascii_eqb c LF) && negb (ascii_eqb c CR)) s.

(** [s] is empty, or its last character ends a line. *)
Fixpoint ends_lines (s : string) : bool :=
  match s with
  | EmptyString => true
  | String c EmptyString => ascii_eqb c LF || ascii_eqb c CR
  | String _ rest => ends_lines rest
  end.

(** ["%0nd" % v] for [0 <= v < 10^n]: the [n] decimal digits of [v]. *)
Fixpoint zero_pad (n : nat) (v : Z) : string :=
  match n with
  | O => EmptyString
  | S n' => zero_pad n' (v / 10) +:+ String (digit_char (v mod 10)) EmptyString
  end.

(** Read exactly [n] decimal digits. *)
Fixpoint parse_digits (n : nat) (s : string) : option (Z * string) :=
  match n with
  | O => Some (0, s)
  | S n' =>
      match parse_digits n' s with
      | Some (v, String c rest) =>
          if is_digit c then Some (10 * v + digit_val c, rest) else None
      | _ => None
      end
  end.

(** Read one or two decimal digits, as many as there are. *)
Definition parse_digits_1_2 (s : string) : option (Z * string) :=
  match s with
  | String c1 rest1 =>
      if is_digit c1 then
        match rest1 with
        | String c2 rest2 =>
            if is_digit c2 then Some (10 * digit_val c1 + digit_val c2, rest2)
            else Some (digit_val c1, rest1)
        | EmptyString => Some (digit_val c1, rest1)
        end
      else None
  | EmptyString => None
  end.

(** [s.split(sep, 1)[1]]: the text after the first [sep], empty when
    [sep] does not occur. *)
Fixpoint split_tail (sep : ascii) (s : string) : string :=
  match s with
  | String c rest => if ascii_eqb c sep then rest else split_tail sep rest
  | EmptyString => EmptyString
  end.

(** The first [n] decimal places of a fraction written as digits, as a
    number of units of [10^-n]. *)
Fixpoint fraction_digits (n : nat) (s : string) : Z :=
  match n with
  | O => 0
  | S n' =>
      match s with
      | String c rest =>
          if is_digit c then digit_val c * 10 ^ Z.of_nat n' + fraction_digits n' rest
          else 0
      | EmptyString => 0
      end
  end.

Definition not_space (c : ascii) : bool := negb (is_space c).

(** Read the character [c]. *)
Definition expect (c : ascii) (s : string) : option string :=
  match s with
  | String c' rest => if ascii_eqb c' c then Some rest else None
  | EmptyString => None
  end.

End Text.

(** ** Datetimes *)

Module Datetime.
Import Text.

Notation "'do' p <- e ; k" :=
  (match e with Some p => k | None => None end)
  (at level 10, p pattern, e at level 100, k at level 200, only parsing).

(** A [timedelta], in microseconds. *)
Definition timedelta := Z.

(** A [datetime]: its seven fields and its [tzinfo], which is [None] for a
    naive value and the UTC offset of a fixed-offset [timezone] for an
    aware one. *)
Record datetime := mk_datetime_tz {
  year : Z; month : Z; day : Z;
  hour : Z; minute : Z; second : Z; microsecond : Z;
  tzinfo : option timedelta
}.

(** The naive datetime of seven fields. *)
Definition mk_datetime (y m d H M S us : Z) : datetime :=
  mk_datetime_tz y m d H M S us None.

Definition is_leap (y : Z) : bool :=
  (y mod 4 =? 0) && (negb (y mod 100 =? 0) || (y mod 400 =? 0)).

Definition days_in_month (y m : Z) : Z :=
  if m =? 2 then (if is_leap y then 29 else 28)
  else if (m =? 4) || (m =? 6) || (m =? 9) || (m =? 11) then 30
  else 31.

Definition in_range (lo v hi : Z) : bool := (lo <=? v) && (v <=? hi).

(** The range checks of the [datetime(...)] constructor on the seven
    fields. *)
Definition valid_fields (d : datetime) : bool :=
  in_range 1 (year d) 9999 && in_range 1 (month d) 12 &&
  in_range 1 (day d) (days_in_month (year d) (month d)) &&
  in_range 0 (hour d) 23 && in_range 0 (minute d) 59 &&
  in_range 0 (second d) 59 && in_range 0 (microsecond d) 999999.

Definition is_naive (d : datetime) : bool :=
  match tzinfo d with
  | None => true
  | Some _ => false
  end.

(** A naive datetime that passes the checks of the constructor: what
    [datetime(y, m, d, H, M, S, us)], [strptime] with a format without zone
    and [utcnow] give. *)
Definition valid_datetime (d : datetime) : bool := valid_fields d && is_naive d.

(** [datetime(y, m, d, H, M, S, us)]; [None] stands for [ValueError]. *)
Definition make_datetime (y m d H M S us : Z) : option datetime :=
  let r := mk_datetime y m d H M S us in
  if valid_datetime r then Some r else None.

(** [datetime(y, m, d, H, M, S, us, tzinfo)] *)
Definition make_datetime_tz (y m d H M S us : Z) (tz : option timedelta)
  : option datetime :=
  let r := mk_datetime_tz y m d H M S us tz in
  if valid_fields r then Some r else None.

Definition days_before_year (y : Z) : Z :=
  let p := y - 1 in p * 365 + p / 4 - p / 100 + p / 400.

Definition days_before_month (y m : Z) : Z :=
  let cumul :=
    nth (Z.to_nat (m - 1)) [0; 31; 59; 90; 120; 151; 181; 212; 243; 273; 304; 334] 0 in
  if (2 <? m) && is_leap y then cumul + 1 else cumul.

(** [date.toordinal()]: 0001-01-01 is day 1. *)
Definition toordinal (d : datetime) : Z :=
  days_before_year (year d) + days_before_month (year d) (month d) + day d.

(** Microseconds since 0001-01-01T00:00:00, by the seven fields. *)
Definition to_micro (d : datetime) : timedelta :=
  ((((toordinal d - 1) * 24 + hour d) * 60 + minute d) * 60 + second d) * 1000000
  + microsecond d.

(** [a <= b] on naive datetimes; on others, the order of their fields. *)
Definition dt_le (a b : datetime) : Prop := to_micro a <= to_micro b.

Definition seconds (n : Z) : timedelta := n * 1000000.

(** [datetime.max] *)
Definition datetime_max : datetime := mk_datetime 9999 12 31 23 59 59 999999.

(** The check of [timezone(offset)]: strictly between minus and plus 24
    hours. *)
Definition valid_offset (offset : timedelta) : bool :=
  (- seconds 86400 <? offset) && (offset <? seconds 86400).

(** The UTC offset as [isoformat] writes it: sign, hours and minutes, the
    seconds when there are any, the microseconds when there are any. *)
Definition format_offset (offset : timedelta) : string :=
  let secs := Z.abs offset / 1000000 in
  let us := Z.abs offset mod 1000000 in
  (if offset <? 0 then "-" else "+")
  +:+ zero_pad 2 (secs / 3600) +:+ ":" +:+ zero_pad 2 (secs / 60 mod 60)
  +:+ (if us =? 0 then
         (if secs mod 60 =? 0 then "" else ":" +:+ zero_pad 2 (secs mod 60))
       else ":" +:+ zero_pad 2 (secs mod 60) +:+ "." +:+ zero_pad 6 us).

(** [d.isoformat()] *)
Definition isoformat (d : datetime) : string :=
  zero_pad 4 (year d) +:+ "-" +:+ zero_pad 2 (month d) +:+ "-" +:+ zero_pad 2 (day d)
  +:+ "T" +:+ zero_pad 2 (hour d) +:+ ":" +:+ zero_pad 2 (minute d) +:+ ":"
  +:+ zero_pad 2 (second d)
  +:+ (if microsecond d =? 0 then "" else "." +:+ zero_pad 6 (microsecond d))
  +:+ match tzinfo d with
      | None => ""
      | Some offset => format_offset offset
      end.

(** The day field of [strptime]'s [%d]: one or two digits, or a space and
    one digit. *)
Definition parse_day (s : string) : option (Z * string) :=
  match s with
  | String " " (String c rest) =>
      if is_digit c && negb (ascii_eqb c "0") then Some (digit_val c, rest) else None
  | _ => parse_digits_1_2 s
  end.

(** [datetime.strptime(s, '%Y-%m-%dT%H:%M:%S')]; [None] stands for
    [ValueError].  The fields are those of the standard library's pattern:
    a four-digit year, the other fields of one or two digits, the literal
    [T] matched without regard to case, nothing after the seconds; the
    values then go through the [datetime] constructor. *)
Definition strptime (s : string) : option datetime :=
  do (y, s) <- parse_digits 4 s;
  do s <- expect "-" s;
  do (m, s) <- parse_digits_1_2 s;
  do s <- expect "-" s;
  do (d, s) <- parse_day s;
  do s <- (match expect "T" s with Some r => Some r | None => expect "t" s end);
  do (H, s) <- parse_digits_1_2 s;
  do s <- expect ":" s;
  do (M, s) <- parse_digits_1_2 s;
  do s <- expect ":" s;
  do (sec, s) <- parse_digits_1_2 s;
  match s with
  | EmptyString => make_datetime y m d H M sec 0
  | _ => None
  end.

(** *** [datetime.fromisoformat]

    The function is modelled as CPython implements it from 3.7 to 3.10
    ([_datetimemodule.c]): the date [YYYY-MM-DD], any one character, then
    the time and the UTC offset, [HH[:MM[:SS[.fff[fff]]]]] and
    [+HH:MM[:SS[.ffffff]]].  The parser is followed step by step, so that
    the model also accepts what the implementation accepts beyond that
    format: a fraction behind the hour or the minute, a colon before the
    fraction, one stray character between the time and the offset.  From
    3.11 on the function reads further forms of ISO 8601, which this model
    rejects. *)

Definition NUL : ascii := "000"%char.

(** What [parse_hh_mm_ss_ff] finds after a field of two digits. *)
Inductive after_field :=
| Stop (left_over : bool)
| Field (rest : string)
| Fraction (rest : string)
| Malformed.

(** The step [c = *(p++)] of [parse_hh_mm_ss_ff] and the tests on it.
    [followed] tells that the text parsed is followed by the sign of an
    offset, and not by the end of the string.  When the character read is
    the last one of the text, or lies behind it, the parser stops, and
    returns 1 unless that character is the terminator; otherwise a colon
    leads to the next field and a full stop to the fraction. *)
Definition read_separator (t : string) (followed : bool) : after_field :=
  match t with
  | EmptyString => Stop followed
  | String c EmptyString => Stop (negb (ascii_eqb c NUL))
  | String c rest =>
      if ascii_eqb c ":" then Field rest
      else if ascii_eqb c "." then Fraction rest
      else Malformed
  end.

(** The fraction: all that is left, three or six digits. *)
Definition parse_fraction (t : string) (followed : bool) : option (Z * bool) :=
  if (String.length t =? 6)%nat then
    do (us, _) <- parse_digits 6 t; Some (us, followed)
  else if (String.length t =? 3)%nat then
    do (ms, _) <- parse_digits 3 t; Some (ms * 1000, followed)
  else None.

(** The loop of [parse_hh_mm_ss_ff] with [n] fields to go: the fields
    read, the microseconds and the return code.  After the third field a
    colon leads to the fraction as a full stop does. *)
Fixpoint parse_fields (n : nat) (t : string) (followed : bool)
  : option (list Z * Z * bool) :=
  match n with
  | O => do (us, rv) <- parse_fraction t followed; Some ([], us, rv)
  | S n' =>
      do (v, t) <- parse_digits 2 t;
      match read_separator t followed with
      | Stop rv => Some ([v], 0, rv)
      | Field t => do (vs, us, rv) <- parse_fields n' t followed; Some (v :: vs, us, rv)
      | Fraction t => do (us, rv) <- parse_fraction t followed; Some ([v], us, rv)
      | Malformed => None
      end
  end.

(** [parse_hh_mm_ss_ff]: hour, minute, second, microsecond, and whether
    the return code is 1; the fields that are not written are 0. *)
Definition parse_hh_mm_ss_ff (t : string) (followed : bool)
  : option (Z * Z * Z * Z * bool) :=
  do (vs, us, rv) <- parse_fields 3 t followed;
  Some (nth 0 vs 0, nth 1 vs 0, nth 2 vs 0, us, rv).

Definition is_sign (c : ascii) : bool := ascii_eqb c "+" || ascii_eqb c "-".

(** The text before the first [+] or [-], and that sign with what follows
    it. *)
Fixpoint split_sign (t : string) : string * option (ascii * string) :=
  match t with
  | EmptyString => (EmptyString, None)
  | String c rest =>
      if is_sign c then (EmptyString, Some (c, rest))
      else
        match split_sign rest with
        | (time, zone) => (String c time, zone)
        end
  end.

(** [parse_isoformat_time]: the four fields of the time and, when an offset
    is written, its whole seconds and its microseconds, both signed.
    Without offset nothing may be left behind the time; the offset has 5,
    8 or 15 characters behind its sign and nothing may be left behind
    it. *)
Definition parse_isoformat_time (t : string) : option (Z * Z * Z * Z * option (Z * Z)) :=
  match split_sign t with
  | (time, None) =>
      do (H, M, sec, us, rv) <- parse_hh_mm_ss_ff time false;
      if rv then None else Some (H, M, sec, us, None)
  | (time, Some (sign, zone)) =>
      do (H, M, sec, us, _) <- parse_hh_mm_ss_ff time true;
      if (String.length zone =? 5)%nat || (String.length zone =? 8)%nat
         || (String.length zone =? 15)%nat then
        do (h, m, s, u, rv) <- parse_hh_mm_ss_ff zone false;
        if rv then None
        else
          let tzsign := if ascii_eqb sign "-" then -1 else 1 in
          Some (H, M, sec, us, Some (tzsign * (h * 3600 + m * 60 + s), tzsign * u))
      else None
  end.

(** [tzinfo_from_isoformat_results]: no [tzinfo] without offset;
    [timezone.utc] when the whole seconds of the offset are 0, whatever its
    microseconds; otherwise [timezone(offset)], which raises [ValueError]
    out of its range. *)
Definition tzinfo_from_isoformat_results (zone : option (Z * Z))
  : option (option timedelta) :=
  match zone with
  | None => Some None
  | Some (tzoffset, tz_useconds) =>
      if tzoffset =? 0 then Some (Some 0)
      else
        let offset := seconds tzoffset + tz_useconds in
        if valid_offset offset then Some (Some offset) else None
  end.

(** [datetime.fromisoformat(s)]; [None] stands for [ValueError].  A string
    of the date alone gives midnight; a string with an offset gives an
    aware datetime. *)
Definition fromisoformat (s : string) : option datetime :=
  do (y, s) <- parse_digits 4 s;
  do s <- expect "-" s;
  do (m, s) <- parse_digits 2 s;
  do s <- expect "-" s;
  do (d, s) <- parse_digits 2 s;
  match s with
  | EmptyString => make_datetime y m d 0 0 0 0
  | String _ t =>
      do (H, M, sec, us, zone) <- parse_isoformat_time t;
      do tz <- tzinfo_from_isoformat_results zone;
      make_datetime_tz y m d H M sec us tz
  end.

(** The datetimes that [isoformat] writes so that [fromisoformat] reads
    them back: the fields are in range, and the offset of an aware one is
    that of a [timezone] and is 0 or at least a second. *)
Definition storable (d : datetime) : bool :=
  valid_fields d &&
  match tzinfo d with
  | None => true
  | Some offset => valid_offset offset && ((offset =? 0) || (seconds 1 <=? Z.abs offset))
  end.

(** [datetime(2008, 1, 1)] *)
Definition default_last_update_time : datetime := mk_datetime 2008 1 1 0 0 0 0.

(** [t.replace(microsecond=us)] *)
Definition with_microsecond (t : datetime) (us : Z) : datetime :=
  mk_datetime_tz (year t) (month t) (day t) (hour t) (minute t) (second t) us (tzinfo t).

(** Spec side: the change time the source reports for a record, its
    [UpdateTime] read together with the fraction of a second, to the
    microsecond. *)
Definition reported_time (s : string) : option datetime :=
  match strptime (split_head "." s) with
  | Some t => Some (with_microsecond t (fraction_digits 6 (split_tail "." s)))
  | None => None
  end.

End Datetime.

(** ** Exceptions, traces and the monad of the connector *)

Module Effects.
Import Text Datetime.

(** The exceptions the connector meets, all of them subclasses of Python's
    [Exception]. *)
Inductive exn :=
| HTTPError (status_code : Z) (text : string)
| ValueError (msg : string)
| OverflowError (msg : string)
| OtherException (cls msg : string).

Inductive result (A : Type) :=
| Ok (a : A)
| Raise (e : exn).
Arguments Ok {A} a.
Arguments Raise {A} e.

(** [{'VideoId': ..., 'UpdateTime': ...}] *)
Record Update := mk_update { VideoId : string; UpdateTime : string }.

(** [{'Updates': [...], 'NextToken': ...}] *)
Record UpdatesResponse := mk_updates_response {
  Updates : list Update;
  NextToken : option string
}.

(** The answer of the content endpoint: [Id], [Deleted] and the rest. *)
Record VideoContent := mk_video_content {
  Id : string; Deleted : bool; content_fields : string
}.

(** The calls of a pass and of the polling loop, with what they returned. *)
Inductive event :=
| EvTargetHandler (r : option exn)
| EvGetOauthToken (r : result string)
| EvUtcNow (t : datetime)
| EvGetIds (from_date : datetime) (next_token : option string) (r : result UpdatesResponse)
| EvSyncVideo (video_id : string) (r : option exn)
| EvSleep (d : timedelta)
| EvWarning (msg : string)
| EvLogException (msg : string) (e : exn)
| EvSave (file_name : string) (t : datetime).

(** A computation over a state [S]: it ends with a value or an exception,
    a new state, and the events it has emitted. *)
Definition M (S A : Type) : Type := S -> result A * S * list event.

Definition ret {S A} (a : A) : M S A := fun s => (Ok a, s, []).

Definition raise {S A} (e : exn) : M S A := fun s => (Raise e, s, []).

Definition bind {S A B} (m : M S A) (k : A -> M S B) : M S B :=
  fun s =>
    match m s with
    | (Ok a, s1, evs1) =>
        match k a s1 with
        | (r, s2, evs2) => (r, s2, evs1 ++ evs2)
        end
    | (Raise e, s1, evs1) => (Raise e, s1, evs1)
    end.

Definition emit {S} (ev : event) : M S unit := fun s => (Ok tt, s, [ev]).

(** Run [m] and emit the event that records how it ended. *)
Definition traced {S A} (ev : result A -> event) (m : M S A) : M S A :=
  fun s =>
    match m s with
    | (r, s1, evs) => (r, s1, evs ++ [ev r])
    end.

Definition as_exn {A} (r : result A) : option exn :=
  match r with
  | Ok _ => None
  | Raise e => Some e
  end.

(** Run a computation of the inner state [S2] from a state [S1] that holds
    it. *)
Definition zoom {S1 S2 A} (get : S1 -> S2) (put : S2 -> S1 -> S1) (m : M S2 A) : M S1 A :=
  fun s =>
    match m (get s) with
    | (r, s2, evs) => (r, put s2 s, evs)
    end.

Declare Scope conn_scope.
Delimit Scope conn_scope with conn.
Notation "x <- m ;; k" := (bind m (fun x => k))
  (at level 100, m at next level, right associativity) : conn_scope.
Notation "m ;;; k" := (bind m (fun _ => k))
  (at level 100, right associativity) : conn_scope.

End Effects.

(** ** The connector *)

Module Connector.
Import Text Datetime Effects.
Local Open Scope conn_scope.

(** [panopto_oauth_credentials]: the keys [username] and [password] may be
    absent. *)
Record Credentials := mk_credentials {
  client_id : string;
  client_secret : string;
  grant_type : string;
  username : option string;
  password : option string
}.

(** The attributes of [ConnectorConfig] that the connector reads. *)
Record ConnectorConfig := mk_config {
  panopto_site_address : string;
  panopto_oauth_credentials : Credentials;
  target_address : string;
  target_implementation : string;
  polling_frequency : timedelta;
  polling_retry_minimum : timedelta
}.

(** What the connector calls outside itself.  [TargetHandler] and the HTTP
    library are not part of [connector.py]; they are taken as they come.
    [post_token] is [requests.post] with [raise_for_status] and the
    [access_token] field of the answer; [get_updates] and [get_content] are
    [requests.get] with [raise_for_status] and the decoded answer.
    [utcnow] is [datetime.utcnow]: the clock gives naive datetimes in the
    range of the constructor, [valid_datetime], which is assumed of its
    readings where a property depends on it. *)
Record Env (World : Type) := mk_env {
  Handler : Type;
  TargetContent : Type;
  home : string;
  target_handler : ConnectorConfig -> World -> result Handler * World;
  convert_to_target : Handler -> VideoContent -> World -> result TargetContent * World;
  push_to_target : Handler -> TargetContent -> ConnectorConfig -> World -> result unit * World;
  delete_from_target : Handler -> string -> World -> result unit * World;
  post_token : string -> list (string * string) -> World -> result string * World;
  get_updates : string -> datetime -> option string -> string -> World
                -> result UpdatesResponse * World;
  get_content : string -> string -> string -> World -> result VideoContent * World;
  utcnow : World -> datetime * World;
  sleep : timedelta -> World -> World
}.
Arguments Handler {World} _.
Arguments TargetContent {World} _.
Arguments home {World} _.
Arguments target_handler {World} _.
Arguments convert_to_target {World} _.
Arguments push_to_target {World} _.
Arguments delete_from_target {World} _.
Arguments post_token {World} _.
Arguments get_updates {World} _.
Arguments get_content {World} _.
Arguments utcnow {World} _.
Arguments sleep {World} _.

(** The state of a run: the world outside, and the files of the home
    directory by path. *)
Record State (World : Type) := mk_state {
  world : World;
  files : gmap string string
}.
Arguments mk_state {World} _ _.
Arguments world {World} _.
Arguments files {World} _.

(** The locals of [sync] that its [try] block assigns. *)
Record Frame := mk_frame {
  next_token : option string;
  new_last_update_time : datetime
}.

Section WithEnv.
Context {World : Type} (env : Env World).

#[local] Abbreviation St := (State World).

(** A call outside the process. *)
Definition call {A} (f : World -> result A * World) : M St A :=
  fun s =>
    match f (world s) with
    | (r, w) => (r, mk_state w (files s), [])
    end.

(** [datetime.utcnow()] *)
Definition datetime_utcnow : M St datetime :=
  fun s =>
    match utcnow env (world s) with
    | (t, w) => (Ok t, mk_state w (files s), [EvUtcNow t])
    end.

(** [time.sleep(d)] *)
Definition time_sleep (d : timedelta) : M St unit :=
  call (fun w => (Ok tt, sleep env d w)) ;;; emit (EvSleep d).

(** [os.path.join(a, b)] for a relative [b]. *)
Definition path_join (a b : string) : string :=
  match a with
  | EmptyString => b
  | _ =>
      match String.get (Nat.pred (String.length a)) a with
      | Some "/"%char => a +:+ b
      | _ => a +:+ "/" +:+ b
      end
  end.

Definition tracking_file (implementation_name : string) : string :=
  path_join (home env) (".panopto-connector." +:+ implementation_name).

Definition get_ids_to_update (oauth_token panopto_site_address : string)
    (from_date : datetime) (next_token : option string) : M St UpdatesResponse :=
  let url := panopto_site_address +:+ "/Panopto/api/v1/searchIndexSync/updates?" in
  let authorization := "Bearer " +:+ oauth_token in
  call (get_updates env url from_date next_token authorization).

Definition get_last_update_time (implementation_name : string) : M St datetime :=
  let file_name := tracking_file implementation_name in
  let last_update_time := default_last_update_time in
  fun s =>
    match files s !! file_name with
    | Some content =>
        match last (readlines content) with
        | Some line =>
            let last_update_time_str := strip line in
            match fromisoformat last_update_time_str with
            | Some t => ret t s
            | None => raise (ValueError ("Invalid isoformat string: " +:+ last_update_time_str)) s
            end
        | None => ret last_update_time s
        end
    | None => ret last_update_time s
    end.

Definition truthy (o : option string) : option string :=
  match o with
  | Some EmptyString => None
  | _ => o
  end.

Definition get_oauth_token (panopto_site_address : string)
    (creds : Credentials) : M St string :=
  let url := panopto_site_address +:+ "/Panopto/oauth2/connect/token" in
  let data := [("client_id", client_id creds);
               ("client_secret", client_secret creds);
               ("grant_type", grant_type creds);
               ("scope", "api")] in
  let data := match truthy (username creds) with
              | Some u => data ++ [("username", u)]
              | None => data
              end in
  let data := match truthy (password creds) with
              | Some p => data ++ [("password", p)]
              | None => data
              end in
  call (post_token env url data).

Definition get_video_content (oauth_token panopto_site_address video_id : string)
    : M St VideoContent :=
  let url := panopto_site_address +:+ "/Panopto/api/v1/searchIndexSync/content?" in
  let authorization := "Bearer " +:+ oauth_token in
  call (get_content env url video_id authorization).

(** The file is opened for appending, which creates it when it is missing;
    the write itself is taken to succeed. *)
Definition save_last_update_time (last_update_time : datetime)
    (implementation_name : string) : M St unit :=
  let file_name := tracking_file implementation_name in
  fun s =>
    let old := default EmptyString (files s !! file_name) in
    let new := old +:+ isoformat last_update_time +:+ String LF EmptyString in
    (Ok tt, mk_state (world s) (<[file_name := new]> (files s)),
     [EvSave file_name last_update_time]).

Definition sync_video_by_id (handler : Handler env) (oauth_token : string)
    (config : ConnectorConfig) (video_id : string) : M St unit :=
  video_content_response <-
    get_video_content oauth_token (panopto_site_address config) video_id ;;
  if Deleted video_content_response then
    call (delete_from_target env handler (Id video_content_response))
  else
    target_content <- call (convert_to_target env handler video_content_response) ;;
    call (push_to_target env handler target_content config).

(** [update['UpdateTime'].split('.')[0]] parsed with
    ['%Y-%m-%dT%H:%M:%S']. *)
Definition update_time_of (update : Update) : option datetime :=
  let update_time_str := split_head "." (UpdateTime update) in
  strptime update_time_str.

Definition in_frame {A} (m : M St A) : M (Frame * St) A :=
  zoom snd (fun s fs => (fst fs, s)) m.

Definition set_new_last_update_time (t : datetime) : M (Frame * St) unit :=
  fun fs => (Ok tt, (mk_frame (next_token (fst fs)) t, snd fs), []).

Definition set_next_token (tok : option string) : M (Frame * St) unit :=
  fun fs => (Ok tt, (mk_frame tok (new_last_update_time (fst fs)), snd fs), []).

Definition get_next_token : M (Frame * St) (option string) :=
  fun fs => (Ok (next_token (fst fs)), fs, []).

(** [for update in get_ids_response['Updates']: ...] *)
Fixpoint for_updates (handler : Handler env) (oauth_token : string)
    (config : ConnectorConfig) (updates : list Update) : M (Frame * St) unit :=
  match updates with
  | [] => ret tt
  | update :: rest =>
      let video_id := VideoId update in
      update_time <-
        match update_time_of update with
        | Some t => ret t
        | None => raise (ValueError ("time data does not match format: " +:+ UpdateTime update))
        end ;;
      in_frame (traced (fun r => EvSyncVideo video_id (as_exn r))
                       (sync_video_by_id handler oauth_token config video_id)) ;;;
      set_new_last_update_time update_time ;;;
      in_frame (time_sleep (seconds 2)) ;;;
      for_updates handler oauth_token config rest
  end.

(** [for _ in range(n): ... else: ...]; leaving at [break] skips the
    [else] branch. *)
Fixpoint for_range (n : nat) (handler : Handler env) (oauth_token : string)
    (config : ConnectorConfig) (last_update_time : datetime) : M (Frame * St) unit :=
  match n with
  | O => emit (EvWarning "Did not complete a sync in 1000 passes")
  | S n' =>
      tok <- get_next_token ;;
      get_ids_response <-
        in_frame (traced (EvGetIds last_update_time tok)
                   (get_ids_to_update oauth_token (panopto_site_address config)
                                      last_update_time tok)) ;;
      for_updates handler oauth_token config (Updates get_ids_response) ;;;
      set_next_token (NextToken get_ids_response) ;;;
      match NextToken get_ids_response with
      | None => ret tt
      | Some _ => for_range n' handler oauth_token config last_update_time
      end
  end.

Definition sync (config : ConnectorConfig) (last_update_time : datetime)
    : M St (datetime * option exn) :=
  handler <- traced (fun r => EvTargetHandler (as_exn r)) (call (target_handler env config)) ;;
  oauth_token <-
    traced EvGetOauthToken
      (get_oauth_token (panopto_site_address config) (panopto_oauth_credentials config)) ;;
  start_time <- datetime_utcnow ;;
  fun s =>
    match for_range 1000 handler oauth_token config last_update_time
                    (mk_frame None last_update_time, s) with
    | (r, (frame, s'), evs) =>
        let exception := as_exn r in
        let new_last_update_time :=
          match exception with
          | None => start_time
          | Some _ => new_last_update_time frame
          end in
        (Ok (new_last_update_time, exception), s', evs)
    end.

(** [wait(remaining_time)] *)
Definition wait (remaining_time : timedelta) : M St unit :=
  if remaining_time <=? 0 then
    emit (EvWarning "Received a negative wait time. Continuing now")
  else time_sleep remaining_time.

(** [start_time + polling_frequency - datetime.utcnow()]: the sum is a
    [datetime] and must lie between [datetime.min] and [datetime.max]. *)
Definition remaining_after (start_time : datetime) (frequency : timedelta)
    : M St timedelta :=
  let due := to_micro start_time + frequency in
  if in_range 0 due (to_micro datetime_max) then
    now <- datetime_utcnow ;;
    ret (due - to_micro now)
  else raise (OverflowError "date value out of range").

(** One turn of the [while True] loop of [run]. *)
Definition run_once (config : ConnectorConfig) (last_update_time : datetime)
    : M St datetime :=
  start_time <- datetime_utcnow ;;
  outcome <- sync config last_update_time ;;
  let last_update_time := fst outcome in
  remaining_time <-
    match snd outcome with
    | Some exception =>
        emit (EvLogException "Failed to sync the search index" exception) ;;;
        ret (polling_retry_minimum config)
    | None => remaining_after start_time (polling_frequency config)
    end ;;
  save_last_update_time last_update_time (target_implementation config) ;;;
  wait remaining_time ;;;
  ret last_update_time.

(** The first [n] turns of the loop, from the watermark [last_update_time]. *)
Fixpoint run_loop (n : nat) (config : ConnectorConfig) (last_update_time : datetime)
    : M St datetime :=
  match n with
  | O => ret last_update_time
  | S n' =>
      last_update_time <- run_once config last_update_time ;;
      run_loop n' config last_update_time
  end.

(** [run(config)], cut after [n] turns of its loop. *)
Definition run (n : nat) (config : ConnectorConfig) : M St datetime :=
  last_update_time <- get_last_update_time (target_implementation config) ;;
  run_loop n config last_update_time.

End WithEnv.

End Connector.

(** ** Traces of passes *)

Module Trace.
Import Text Datetime Effects Connector.

Definition res_of {S A} (x : result A * S * list event) : result A := fst (fst x).
Definition state_of {S A} (x : result A * S * list event) : S := snd (fst x).
Definition events_of {S A} (x : result A * S * list event) : list event := snd x.

(** The answers of the change-list endpoint, in the order of the calls. *)
Definition get_ids_results (evs : list event) : list (result UpdatesResponse) :=
  omap (fun ev => match ev with EvGetIds _ _ r => Some r | _ => None end) evs.

(** The records the pass was given, in the order it was given them. *)
Definition enumerated (evs : list event) : list Update :=
  flat_map (fun ev => match ev with EvGetIds _ _ (Ok resp) => Updates resp | _ => [] end) evs.

(** The calls of [sync_video_by_id] with how each ended. *)
Definition sync_results (evs : list event) : list (string * option exn) :=
  omap (fun ev => match ev with EvSyncVideo v r => Some (v, r) | _ => None end) evs.

(** The identifiers whose synchronisation returned normally. *)
Definition applied (evs : list event) : list string :=
  omap (fun ev => match ev with EvSyncVideo v None => Some v | _ => None end) evs.

Definition clock_readings (evs : list event) : list datetime :=
  omap (fun ev => match ev with EvUtcNow t => Some t | _ => None end) evs.

Definition sleeps (evs : list event) : list timedelta :=
  omap (fun ev => match ev with EvSleep d => Some d | _ => None end) evs.

Definition warnings (evs : list event) : list string :=
  omap (fun ev => match ev with EvWarning m => Some m | _ => None end) evs.

(** The watermarks written to the checkpoint file. *)
Definition saved (evs : list event) : list datetime :=
  omap (fun ev => match ev with EvSave _ t => Some t | _ => None end) evs.

(** The value of [new_last_update_time] after the records [us] have been
    applied, starting from [c]. *)
Definition candidate (c : datetime) (us : list Update) : datetime :=
  fold_left (fun acc u => default acc (update_time_of u)) us c.

Definition parses (u : Update) : Prop := is_Some (update_time_of u).


Definition sync_ok (u : Update) : string * option exn := (VideoId u, None).

(** The items whose synchronisation raised, with the exception. *)
Definition item_failures (evs : list event) : list (string * exn) :=
  omap (fun ev => match ev with EvSyncVideo v (Some e) => Some (v, e) | _ => None end) evs.

(** The watermark in force after the events [evs], from [w]. *)
Definition last_saved (w : datetime) (evs : list event) : datetime :=
  default w (last (saved evs)).

(** What [wait] leaves in the trace. *)
Definition wait_events (d : timedelta) : list event :=
  if d <=? 0 then [EvWarning "Received a negative wait time. Continuing now"]
  else [EvSleep d].

Definition log_failure (e : exn) : event :=
  EvLogException "Failed to sync the search index" e.

Definition save_event {World} (env : Env World) (cfg : ConnectorConfig) (wm : datetime)
  : event :=
  EvSave (tracking_file env (target_implementation cfg)) wm.

Definition saved_state {World} (env : Env World) (wm : datetime) (cfg : ConnectorConfig)
    (s : State World) : State World :=
  state_of (save_last_update_time env wm (target_implementation cfg) s).



(** What a record that is applied leaves in the trace. *)
Definition ok_events (u : Update) : list event :=
  [EvSyncVideo (VideoId u) None; EvSleep (seconds 2)].

Definition bad_time (u : Update) : exn :=
  ValueError ("time data does not match format: " +:+ UpdateTime u).

(** The runs of the inner loop of [sync] over the records [us] of a page,
    entered with the candidate [c]. *)
Inductive updates_run (c : datetime) (us : list Update)
  : result unit -> datetime -> list event -> Prop :=
| UpdatesDone :
    Forall parses us ->
    updates_run c us (Ok tt) (candidate c us) (flat_map ok_events us)
| UpdatesBadTime pre u post :
    us = pre ++ u :: post -> Forall parses pre -> update_time_of u = None ->
    updates_run c us (Raise (bad_time u)) (candidate c pre) (flat_map ok_events pre)
| UpdatesFailed pre u post e :
    us = pre ++ u :: post -> Forall parses pre -> parses u ->
    updates_run c us (Raise e) (candidate c pre)
                (flat_map ok_events pre ++ [EvSyncVideo (VideoId u) (Some e)]).

Definition ceiling_warning : event := EvWarning "Did not complete a sync in 1000 passes".

(** The runs of the outer loop of [sync] with [n] turns left, the cursor
    [tok] and the candidate [c]; [from] is the watermark of the pass. *)
Inductive pass_run (from : datetime)
  : nat -> option string -> datetime -> result unit -> datetime -> list event -> Prop :=
| PassCeiling tok c :
    pass_run from O tok c (Ok tt) c [ceiling_warning]
| PassEnumFailed n tok c e :
    pass_run from (S n) tok c (Raise e) c [EvGetIds from tok (Raise e)]
| PassItemFailed n tok c resp e c' evs :
    updates_run c (Updates resp) (Raise e) c' evs ->
    pass_run from (S n) tok c (Raise e) c' (EvGetIds from tok (Ok resp) :: evs)
| PassLastPage n tok c resp c' evs :
    NextToken resp = None ->
    updates_run c (Updates resp) (Ok tt) c' evs ->
    pass_run from (S n) tok c (Ok tt) c' (EvGetIds from tok (Ok resp) :: evs)
| PassNextPage n tok c resp tok' c' evs r c'' evs' :
    NextToken resp = Some tok' ->
    updates_run c (Updates resp) (Ok tt) c' evs ->
    pass_run from n (Some tok') c' r c'' evs' ->
    pass_run from (S n) tok c r c'' (EvGetIds from tok (Ok resp) :: evs ++ evs').

(** The runs of [sync] from the watermark [w]. *)
Inductive sync_run (w : datetime)
  : result (datetime * option exn) -> list event -> Prop :=
| SyncNoHandler e :
    sync_run w (Raise e) [EvTargetHandler (Some e)]
| SyncNoToken e :
    sync_run w (Raise e) [EvTargetHandler None; EvGetOauthToken (Raise e)]
| SyncPass tok t0 r c evs :
    pass_run w 1000 None w r c evs ->
    sync_run w (Ok (match r with Ok _ => t0 | Raise _ => c end, as_exn r))
             (EvTargetHandler None :: EvGetOauthToken (Ok tok) :: EvUtcNow t0 :: evs).

End Trace.

(** ** Scenarios *)

Module Scenario.
Import Text Datetime Effects Connector Trace.

(** An outside world that counts the enumeration calls made so far: the
    clock and the change-list endpoint answer by that count, the content
    endpoint by identifier; the target accepts everything. *)
Definition scripted (now : nat -> datetime) (token : result string)
    (pages : nat -> option string -> result UpdatesResponse)
    (content : string -> result VideoContent) : Env nat :=
  {| Handler := unit;
     TargetContent := string;
     home := "/home/connector";
     target_handler := fun _ n => (Ok tt, n);
     convert_to_target := fun _ vc n => (Ok (content_fields vc), n);
     push_to_target := fun _ _ _ n => (Ok tt, n);
     delete_from_target := fun _ _ n => (Ok tt, n);
     post_token := fun _ _ n => (token, n);
     get_updates := fun _ _ tok _ n => (pages n tok, S n);
     get_content := fun _ v _ n => (content v, n);
     utcnow := fun n => (now n, n);
     sleep := fun _ n => n |}.

Definition config : ConnectorConfig :=
  {| panopto_site_address := "https://panopto.example";
     panopto_oauth_credentials :=
       mk_credentials "client" "secret" "client_credentials" None None;
     target_address := "https://target.example";
     target_implementation := "example";
     polling_frequency := seconds 60;
     polling_retry_minimum := seconds 10 |}.

Definition checkpoint_path : string := "/home/connector/.panopto-connector.example".

Definition fresh (fs : gmap string string) : State nat := mk_state O fs.

Definition T0 : datetime := mk_datetime 2020 3 1 9 0 0 0.
Definition T1 : datetime := mk_datetime 2020 3 1 10 0 0 0.
Definition T2 : datetime := mk_datetime 2020 3 1 10 0 5 0.
Definition noon : datetime := mk_datetime 2020 3 1 12 0 0 250000.

Definition update_a : Update := mk_update "a" "2020-03-01T10:00:00.1234567".
Definition update_b : Update := mk_update "b" "2020-03-01T10:00:05.9".

Definition two_updates : UpdatesResponse := mk_updates_response [update_a; update_b] None.

Definition found (v : string) : result VideoContent :=
  Ok (mk_video_content v false "content").

Definition server_error : exn := HTTPError 500 "Internal Server Error".
Definition unauthorized : exn := HTTPError 401 "invalid_client".

(** Both records are applied. *)
Definition env_two_updates : Env nat :=
  scripted (fun _ => noon) (Ok "token") (fun _ _ => Ok two_updates) found.

(** The content of record [b] cannot be fetched. *)
Definition env_second_fails : Env nat :=
  scripted (fun _ => noon) (Ok "token") (fun _ _ => Ok two_updates)
           (fun v => if String.eqb v "b" then Raise server_error else found v).

(** No content can be fetched. *)
Definition env_content_down : Env nat :=
  scripted (fun _ => noon) (Ok "token") (fun _ _ => Ok two_updates)
           (fun _ => Raise server_error).

(** Every page holds one record and a cursor to a further page. *)
Definition env_endless : Env nat :=
  scripted (fun _ => noon) (Ok "token")
           (fun _ _ => Ok (mk_updates_response [update_a] (Some "more"))) found.

(** The token endpoint rejects the credentials. *)
Definition env_token_rejected : Env nat :=
  scripted (fun _ => noon) (Raise unauthorized) (fun _ _ => Ok two_updates) found.

(** The change-list endpoint is down. *)
Definition env_enumeration_down : Env nat :=
  scripted (fun _ => noon) (Ok "token") (fun _ _ => Raise server_error) found.

(** Nothing has changed. *)
Definition env_no_change : Env nat :=
  scripted (fun _ => noon) (Ok "token") (fun _ _ => Ok (mk_updates_response [] None)) found.

Definition half_past : datetime := mk_datetime 2020 3 1 12 0 0 500000.
Definition later : datetime := mk_datetime 2020 3 1 12 0 10 0.


(** The same two passes with the records changed at 12:00:05 and after. *)
Definition env_in_order : Env nat :=
  scripted (fun n => match n with O => half_past | _ => later end) (Ok "token")
           (fun n _ => match n with
                       | O => Ok (mk_updates_response [] None)
                       | _ => Ok (mk_updates_response
                                    [mk_update "a" "2020-03-01T12:00:05.7";
                                     mk_update "b" "2020-03-01T12:00:07.2"] None)
                       end)
           (fun v => if String.eqb v "b" then Raise server_error else found v).

(** A checkpoint file of two lines. *)
Definition two_lines : string :=
  "2019-05-06T07:08:09" +:+ String LF "" +:+ "2020-01-02T03:04:05.000006" +:+ String LF "".

Definition five_past : datetime := mk_datetime 2020 3 1 12 0 5 0.

End Scenario.

(** ** Further observations on traces *)

Module Observed.
Import Text Datetime Effects Connector Trace.

(** The enumeration calls of a trace: the cursor sent and the answer. *)
Definition enum_calls (evs : list event) : list (option string * result UpdatesResponse) :=
  omap (fun ev => match ev with EvGetIds _ tok r => Some (tok, r) | _ => None end) evs.

(** The cursors are handed on: a call sends [tok], the next one the cursor
    of the answer, and no call follows an answer without cursor or a call
    that raised. *)
Fixpoint chained (tok : option string)
    (calls : list (option string * result UpdatesResponse)) : Prop :=
  match calls with
  | [] => True
  | (sent, r) :: rest =>
      sent = tok /\
      match r with
      | Ok resp =>
          match NextToken resp with
          | Some next => chained (Some next) rest
          | None => rest = []
          end
      | Raise _ => rest = []
      end
  end.

(** Every enumeration call asks for the changes since the watermark in
    force: [w] to begin with, then the one last saved. *)
Fixpoint resumes (w : datetime) (evs : list event) : Prop :=
  match evs with
  | [] => True
  | EvGetIds from_date _ _ :: rest => from_date = w /\ resumes w rest
  | EvSave _ w' :: rest => resumes w' rest
  | _ :: rest => resumes w rest
  end.

Definition is_ok {A} (r : result A) : bool :=
  match r with
  | Ok _ => true
  | Raise _ => false
  end.

Definition has_cursor (r : result UpdatesResponse) : bool :=
  match r with
  | Ok resp => match NextToken resp with Some _ => true | None => false end
  | Raise _ => false
  end.

(** The checkpoint file after the watermarks [ws] have been saved, one
    after the other, to a file that held [prior]. *)
Fixpoint file_after (prior : string) (ws : list datetime) : string :=
  match ws with
  | [] => prior
  | w :: rest => file_after (prior +:+ isoformat w +:+ String LF "") rest
  end.

(** The events of the inner loop: item synchronisations and pauses. *)
Definition item_event (ev : event) : Prop :=
  match ev with
  | EvSyncVideo _ _ | EvSleep _ => True
  | _ => False
  end.

End Observed.

(** ** Requests *)

Module Requests.
Import Text Datetime Effects Connector Trace.

(** The calls made outside the process, with what is sent. *)
Inductive request :=
| ReqHandler (config : ConnectorConfig)
| ReqToken (url : string) (data : list (string * string))
| ReqUpdates (url : string) (from_date : datetime) (next_token : option string)
             (authorization : string)
| ReqContent (url video_id authorization : string)
| ReqConvert (content : VideoContent)
| ReqPush (config : ConnectorConfig)
| ReqDelete (id : string).

(** [f] with the request [q] added to the record of requests. *)
Definition noting {World A} (q : request) (f : World -> result A * World)
  : World * list request -> result A * (World * list request) :=
  fun wl =>
    match f (fst wl) with
    | (r, w) => (r, (w, snd wl ++ [q]))
    end.

(** The environment [env] keeping a record of the requests made to it;
    its answers are those of [env]. *)
Definition recorded {World} (env : Env World) : Env (World * list request) :=
  {| Handler := Handler env;
     TargetContent := TargetContent env;
     home := home env;
     target_handler := fun cfg => noting (ReqHandler cfg) (target_handler env cfg);
     convert_to_target := fun h vc => noting (ReqConvert vc) (convert_to_target env h vc);
     push_to_target := fun h tc cfg => noting (ReqPush cfg) (push_to_target env h tc cfg);
     delete_from_target := fun h id => noting (ReqDelete id) (delete_from_target env h id);
     post_token := fun url data => noting (ReqToken url data) (post_token env url data);
     get_updates := fun url from_date tok auth =>
       noting (ReqUpdates url from_date tok auth) (get_updates env url from_date tok auth);
     get_content := fun url v auth =>
       noting (ReqContent url v auth) (get_content env url v auth);
     utcnow := fun wl => match utcnow env (fst wl) with (t, w) => (t, (w, snd wl)) end;
     sleep := fun d wl => (sleep env d (fst wl), snd wl) |}.

Definition requests {World} (s : State (World * list request)) : list request :=
  snd (world s).

Definition content_url (cfg : ConnectorConfig) : string :=
  panopto_site_address cfg +:+ "/Panopto/api/v1/searchIndexSync/content?".

Definition updates_url (cfg : ConnectorConfig) : string :=
  panopto_site_address cfg +:+ "/Panopto/api/v1/searchIndexSync/updates?".

Definition bearer (token : string) : string := "Bearer " +:+ token.

(** A request of a pass that started from [w] with the token [token]. *)
Definition authorized (cfg : ConnectorConfig) (token : string) (w : datetime)
    (q : request) : Prop :=
  match q with
  | ReqUpdates url from_date _ auth =>
      url = updates_url cfg /\ from_date = w /\ auth = bearer token
  | ReqContent url _ auth => url = content_url cfg /\ auth = bearer token
  | ReqHandler _ | ReqToken _ _ => False
  | ReqConvert _ | ReqPush _ | ReqDelete _ => True
  end.

End Requests.

(** ** Further scenarios *)

Module MoreScenarios.
Import Text Datetime Effects Connector Trace Scenario.

Definition update_z : Update := mk_update "z" "2020-03-01T10:00:05Z".

(** The second record carries a time with a zone designator and no
    fraction. *)
Definition env_zone_designator : Env nat :=
  scripted (fun _ => noon) (Ok "token")
           (fun _ _ => Ok (mk_updates_response [update_a; update_z] None)) found.

(** The first page is answered, with a cursor; the call for the second
    page fails. *)
Definition env_second_page_down : Env nat :=
  scripted (fun _ => noon) (Ok "token")
           (fun n _ => match n with
                       | O => Ok (mk_updates_response [update_a; update_b] (Some "page2"))
                       | _ => Raise server_error
                       end)
           found.

End MoreScenarios.

(** ** Facts about text *)

Module TextFacts.
Import Text.

Lemma append_cons c s t : String c s +:+ t = String c (s +:+ t).
Proof. reflexivity. Qed.

Lemma append_nil_l s : "" +:+ s = s.
Proof. reflexivity. Qed.

Lemma append_nil_r s : s +:+ "" = s.
Proof. induction s as [|c s IH]; [reflexivity|]. rewrite append_cons, IH. reflexivity. Qed.

Lemma append_assoc s t u : (s +:+ t) +:+ u = s +:+ (t +:+ u).
Proof.
  induction s as [|c s IH]; [reflexivity|].
  rewrite !append_cons, IH. reflexivity.
Qed.

Lemma digit_char_spec d :
  0 <= d <= 9 ->
  is_digit (digit_char d) = true /\ digit_val (digit_char d) = d /\
  is_space (digit_char d) = false /\
  ascii_eqb (digit_char d) LF = false /\ ascii_eqb (digit_char d) CR = false.
Proof.
  intros H.
  assert (d = 0 \/ d = 1 \/ d = 2 \/ d = 3 \/ d = 4 \/ d = 5 \/ d = 6 \/ d = 7
          \/ d = 8 \/ d = 9) as Hd by lia.
  repeat (destruct Hd as [-> | Hd]); try subst d; repeat split; reflexivity.
Qed.

Lemma parse_zero_pad n : forall v rest,
  0 <= v < 10 ^ Z.of_nat n ->
  parse_digits n (zero_pad n v +:+ rest) = Some (v, rest).
Proof.
  induction n as [|n IH]; intros v rest Hv.
  - simpl in *. f_equal. f_equal. lia.
  - rewrite Nat2Z.inj_succ, Z.pow_succ_r in Hv by lia.
    cbn [zero_pad parse_digits]. rewrite append_assoc, append_cons, append_nil_l.
    rewrite IH by (split; [apply Z.div_pos; lia | apply Z.div_lt_upper_bound; lia]).
    destruct (digit_char_spec (v mod 10)) as (Hd & Hv' & _).
    { pose proof (Z.mod_pos_bound v 10). lia. }
    rewrite Hd, Hv'. f_equal. f_equal.
    pose proof (Z.div_mod v 10). lia.
Qed.

Lemma length_append s t :
  String.length (s +:+ t) = (String.length s + String.length t)%nat.
Proof.
  induction s as [|c s IH]; [reflexivity|]. rewrite append_cons. simpl. rewrite IH.
  reflexivity.
Qed.

Lemma zero_pad_length n : forall v, String.length (zero_pad n v) = n.
Proof.
  induction n as [|n IH]; intros v; [reflexivity|].
  cbn [zero_pad]. rewrite length_append, IH. simpl. lia.
Qed.

Lemma zero_pad_append_not_empty n v s : zero_pad (S n) v +:+ s <> "".
Proof.
  intros H. apply (f_equal String.length) in H.
  rewrite length_append, zero_pad_length in H. discriminate H.
Qed.

Lemma all_chars_app p s t : all_chars p (s +:+ t) = all_chars p s && all_chars p t.
Proof.
  induction s as [|c s IH]; [reflexivity|].
  rewrite ?append_cons. simpl. rewrite IH, andb_assoc. reflexivity.
Qed.

Lemma all_chars_impl (p q : ascii -> bool) s :
  (forall c, p c = true -> q c = true) -> all_chars p s = true -> all_chars q s = true.
Proof.
  intros Hpq. induction s as [|c s IH]; [reflexivity|]. simpl.
  intros H. apply andb_prop in H as [Hc Hs]. rewrite (Hpq _ Hc), (IH Hs). reflexivity.
Qed.

Lemma zero_pad_digits n : forall v, all_chars is_digit (zero_pad n v) = true.
Proof.
  induction n as [|n IH]; intros v; [reflexivity|].
  cbn [zero_pad]. rewrite all_chars_app, IH. simpl.
  destruct (digit_char_spec (v mod 10)) as (Hd & _).
  { pose proof (Z.mod_pos_bound v 10). lia. }
  rewrite Hd. reflexivity.
Qed.

End TextFacts.

Module DatetimeFacts.
Import Text Datetime TextFacts.

Lemma days_in_month_bound y m : 28 <= days_in_month y m <= 31.
Proof.
  unfold days_in_month.
  destruct (m =? 2); [destruct (is_leap y); lia|].
  destruct ((m =? 4) || (m =? 6) || (m =? 9) || (m =? 11)); lia.
Qed.

Lemma valid_fields_ranges d :
  valid_fields d = true ->
  1 <= year d <= 9999 /\ 1 <= month d <= 12 /\
  1 <= day d <= days_in_month (year d) (month d) /\
  0 <= hour d <= 23 /\ 0 <= minute d <= 59 /\ 0 <= second d <= 59 /\
  0 <= microsecond d <= 999999.
Proof.
  unfold valid_fields, in_range. intros H.
  repeat (apply andb_prop in H; destruct H as [H ?]).
  repeat match goal with
         | H : (_ <=? _) = true |- _ => apply Z.leb_le in H
         end.
  lia.
Qed.

Lemma valid_datetime_naive d :
  valid_datetime d = true -> valid_fields d = true /\ tzinfo d = None.
Proof.
  unfold valid_datetime, is_naive. intros H. apply andb_prop in H as [Hf Hn].
  split; [exact Hf|]. destruct (tzinfo d); [discriminate Hn|reflexivity].
Qed.

Lemma valid_datetime_ranges d :
  valid_datetime d = true ->
  1 <= year d <= 9999 /\ 1 <= month d <= 12 /\
  1 <= day d <= days_in_month (year d) (month d) /\
  0 <= hour d <= 23 /\ 0 <= minute d <= 59 /\ 0 <= second d <= 59 /\
  0 <= microsecond d <= 999999.
Proof. intros H. apply valid_fields_ranges, valid_datetime_naive, H. Qed.

Lemma valid_datetime_storable d : valid_datetime d = true -> storable d = true.
Proof.
  intros H. destruct (valid_datetime_naive d H) as [Hf Hn].
  unfold storable. rewrite Hf, Hn. reflexivity.
Qed.

Lemma make_datetime_valid d :
  valid_datetime d = true ->
  make_datetime (year d) (month d) (day d) (hour d) (minute d) (second d)
                (microsecond d) = Some d.
Proof.
  intros H. destruct (valid_datetime_naive d H) as [_ Hn].
  unfold make_datetime, mk_datetime. destruct d; simpl in *. subst. rewrite H. reflexivity.
Qed.

Lemma make_datetime_tz_valid d :
  valid_fields d = true ->
  make_datetime_tz (year d) (month d) (day d) (hour d) (minute d) (second d)
                   (microsecond d) (tzinfo d) = Some d.
Proof.
  intros H. unfold make_datetime_tz. destruct d; simpl in *. rewrite H. reflexivity.
Qed.



Lemma dt_le_trans a b c : dt_le a b -> dt_le b c -> dt_le a c.
Proof. unfold dt_le. lia. Qed.

Ltac step_literal := rewrite ?append_cons, ?append_nil_l.

(** *** Reading back what [isoformat] writes *)

Lemma digit_not_sign c : is_digit c = true -> negb (is_sign c) = true.
Proof.
  unfold is_sign, ascii_eqb. intros H.
  destruct (Ascii.eqb_spec c "+") as [->|_]; [discriminate H|].
  destruct (Ascii.eqb_spec c "-") as [->|_]; [discriminate H|]. reflexivity.
Qed.

Lemma zero_pad_no_sign n v : all_chars (fun c => negb (is_sign c)) (zero_pad n v) = true.
Proof. apply (all_chars_impl is_digit); [apply digit_not_sign | apply zero_pad_digits]. Qed.

Lemma split_sign_none t :
  all_chars (fun c => negb (is_sign c)) t = true -> split_sign t = (t, None).
Proof.
  induction t as [|c t IH]; [reflexivity|]. cbn [all_chars split_sign].
  intros H. apply andb_prop in H as [Hc Ht].
  destruct (is_sign c); [discriminate Hc|]. rewrite (IH Ht). reflexivity.
Qed.

Lemma split_sign_some t c rest :
  all_chars (fun c => negb (is_sign c)) t = true -> is_sign c = true ->
  split_sign (t +:+ String c rest) = (t, Some (c, rest)).
Proof.
  intros Ht Hc. induction t as [|c' t IH].
  - rewrite append_nil_l. cbn [split_sign]. rewrite Hc. reflexivity.
  - cbn [all_chars] in Ht. apply andb_prop in Ht as [Hc' Ht].
    rewrite append_cons. cbn [split_sign].
    destruct (is_sign c'); [discriminate Hc'|]. rewrite (IH Ht). reflexivity.
Qed.

Lemma read_separator_colon r followed :
  r <> "" -> read_separator (String ":" r) followed = Field r.
Proof. destruct r; [congruence|reflexivity]. Qed.

Lemma read_separator_dot r followed :
  r <> "" -> read_separator (String "." r) followed = Fraction r.
Proof. destruct r; [congruence|reflexivity]. Qed.

Lemma parse_fraction_zero_pad us followed :
  0 <= us <= 999999 ->
  parse_fraction (zero_pad 6 us) followed = Some (us, followed).
Proof.
  intros Hus. unfold parse_fraction. rewrite zero_pad_length. cbn [Nat.eqb].
  rewrite <- (append_nil_r (zero_pad 6 us)), parse_zero_pad by (simpl; lia). reflexivity.
Qed.

(** The text of a time or of an offset with its seconds. *)
Lemma parse_hh_mm_ss_ff_full H M sec us followed :
  0 <= H <= 99 -> 0 <= M <= 99 -> 0 <= sec <= 99 -> 0 <= us <= 999999 ->
  parse_hh_mm_ss_ff
    (zero_pad 2 H +:+ ":" +:+ zero_pad 2 M +:+ ":" +:+ zero_pad 2 sec
     +:+ (if us =? 0 then "" else "." +:+ zero_pad 6 us)) followed
  = Some (H, M, sec, us, followed).
Proof.
  intros HH HM HS Hus. unfold parse_hh_mm_ss_ff. cbn [parse_fields].
  rewrite parse_zero_pad by (simpl; lia). step_literal.
  rewrite read_separator_colon by apply zero_pad_append_not_empty.
  rewrite parse_zero_pad by (simpl; lia). step_literal.
  rewrite read_separator_colon by apply zero_pad_append_not_empty.
  rewrite parse_zero_pad by (simpl; lia).
  destruct (us =? 0) eqn:Hz.
  - apply Z.eqb_eq in Hz. subst us. reflexivity.
  - step_literal. rewrite read_separator_dot by apply (zero_pad_append_not_empty 5 us "").
    rewrite parse_fraction_zero_pad by lia. reflexivity.
Qed.

(** The text of an offset of whole minutes. *)
Lemma parse_hh_mm_ss_ff_minutes H M :
  0 <= H <= 99 -> 0 <= M <= 99 ->
  parse_hh_mm_ss_ff (zero_pad 2 H +:+ ":" +:+ zero_pad 2 M +:+ "") false
  = Some (H, M, 0, 0, false).
Proof.
  intros HH HM. unfold parse_hh_mm_ss_ff. cbn [parse_fields].
  rewrite parse_zero_pad by (simpl; lia). step_literal.
  rewrite read_separator_colon by apply zero_pad_append_not_empty.
  rewrite parse_zero_pad by (simpl; lia). reflexivity.
Qed.

Lemma time_text_no_sign H M sec us :
  all_chars (fun c => negb (is_sign c))
    (zero_pad 2 H +:+ ":" +:+ zero_pad 2 M +:+ ":" +:+ zero_pad 2 sec
     +:+ (if us =? 0 then "" else "." +:+ zero_pad 6 us)) = true.
Proof.
  destruct (us =? 0); rewrite !all_chars_app, !zero_pad_no_sign; reflexivity.
Qed.

(** The offset that [format_offset] writes is read back. *)
Lemma parse_format_offset time offset H M sec us :
  valid_offset offset = true ->
  (offset =? 0) || (seconds 1 <=? Z.abs offset) = true ->
  all_chars (fun c => negb (is_sign c)) time = true ->
  parse_hh_mm_ss_ff time true = Some (H, M, sec, us, true) ->
  match parse_isoformat_time (time +:+ format_offset offset) with
  | Some (H', M', sec', us', zone) =>
      (H', M', sec', us') = (H, M, sec, us)
      /\ tzinfo_from_isoformat_results zone = Some (Some offset)
  | None => False
  end.
Proof.
  unfold valid_offset, seconds. intros Hrange Hplain Htime Hparse.
  apply andb_prop in Hrange as [Hlo Hhi]. apply Z.ltb_lt in Hlo, Hhi.
  set (a := Z.abs offset). set (secs := a / 1000000). set (us' := a mod 1000000).
  assert (Ha : 0 <= a < 86400000000) by (subst a; lia).
  assert (Hdm : a = 1000000 * secs + us') by (apply Z.div_mod; lia).
  assert (Hus : 0 <= us' < 1000000) by (apply Z.mod_pos_bound; lia).
  assert (Hsecs : 0 <= secs < 86400).
  { subst secs. split; [apply Z.div_pos; lia | apply Z.div_lt_upper_bound; lia]. }
  assert (Hhh : 0 <= secs / 3600 <= 23).
  { split; [apply Z.div_pos; lia|].
    assert (secs / 3600 < 24) by (apply Z.div_lt_upper_bound; lia). lia. }
  assert (Hmm : 0 <= secs / 60 mod 60 < 60) by (apply Z.mod_pos_bound; lia).
  assert (Hss : 0 <= secs mod 60 < 60) by (apply Z.mod_pos_bound; lia).
  assert (Hsum : secs / 3600 * 3600 + secs / 60 mod 60 * 60 + secs mod 60 = secs).
  { pose proof (Z.div_mod secs 60). pose proof (Z.div_mod (secs / 60) 60).
    rewrite Z.div_div in * by lia. change (60 * 60) with 3600 in *. lia. }
  unfold format_offset, parse_isoformat_time. fold a. fold secs. fold us'.
  set (sign := if offset <? 0 then "-" else "+").
  assert (Hsign : exists c, sign = String c "" /\ is_sign c = true
                            /\ (if ascii_eqb c "-" then -1 else 1) * a = offset).
  { subst sign a. destruct (Z.ltb_spec offset 0).
    - exists "-"%char. repeat split. cbn. lia.
    - exists "+"%char. repeat split. cbn. lia. }
  destruct Hsign as (c & -> & Hc & Hsgn).
  change (String c "" +:+ ?r) with (String c r).
  rewrite (split_sign_some _ _ _ Htime Hc), Hparse.
  assert (Hzone :
    exists zone,
      zero_pad 2 (secs / 3600) +:+ ":" +:+ zero_pad 2 (secs / 60 mod 60)
      +:+ (if us' =? 0 then if secs mod 60 =? 0 then "" else ":" +:+ zero_pad 2 (secs mod 60)
           else ":" +:+ zero_pad 2 (secs mod 60) +:+ "." +:+ zero_pad 6 us') = zone
      /\ ((String.length zone =? 5)%nat || (String.length zone =? 8)%nat
          || (String.length zone =? 15)%nat) = true
      /\ parse_hh_mm_ss_ff zone false
         = Some (secs / 3600, secs / 60 mod 60, secs mod 60, us', false)).
  { destruct (us' =? 0) eqn:Hz; [destruct (secs mod 60 =? 0) eqn:Hz'|].
    - apply Z.eqb_eq in Hz, Hz'. eexists. split; [reflexivity|]. split.
      + rewrite !length_append, !zero_pad_length. reflexivity.
      + rewrite Hz, Hz'. apply parse_hh_mm_ss_ff_minutes; lia.
    - apply Z.eqb_eq in Hz. eexists. split; [reflexivity|]. split.
      + rewrite !length_append, !zero_pad_length. reflexivity.
      + rewrite Hz.
        rewrite <- (parse_hh_mm_ss_ff_full (secs / 3600) (secs / 60 mod 60) (secs mod 60)
                      0 false) by lia.
        change (0 =? 0) with true. cbv iota. reflexivity.
    - eexists. split; [reflexivity|]. split.
      + rewrite !length_append, !zero_pad_length. reflexivity.
      + rewrite <- (parse_hh_mm_ss_ff_full (secs / 3600) (secs / 60 mod 60) (secs mod 60)
                      us' false) by lia.
        rewrite Hz. reflexivity. }
  destruct Hzone as (zone & -> & -> & ->). cbv iota.
  split; [reflexivity|].
  unfold tzinfo_from_isoformat_results, valid_offset, seconds. rewrite Hsum.
  destruct (Z.eqb_spec ((if ascii_eqb c "-" then -1 else 1) * secs) 0) as [Hzero|Hnz].
  - assert (secs = 0) by (destruct (ascii_eqb c "-"); lia).
    apply orb_prop in Hplain as [Hp | Hp].
    + apply Z.eqb_eq in Hp. rewrite Hp. reflexivity.
    + apply Z.leb_le in Hp. fold a in Hp. lia.
  - assert (Hoff : (if ascii_eqb c "-" then -1 else 1) * secs * 1000000
                   + (if ascii_eqb c "-" then -1 else 1) * us' = offset).
    { destruct (ascii_eqb c "-"); lia. }
    rewrite Hoff.
    destruct (Z.ltb_spec (- (86400 * 1000000)) offset); [|lia].
    destruct (Z.ltb_spec offset (86400 * 1000000)); [|lia]. reflexivity.
Qed.

Lemma isoformat_parts d :
  isoformat d
  = zero_pad 4 (year d) +:+ "-" +:+ zero_pad 2 (month d) +:+ "-" +:+ zero_pad 2 (day d)
    +:+ String "T"
          ((zero_pad 2 (hour d) +:+ ":" +:+ zero_pad 2 (minute d) +:+ ":"
            +:+ zero_pad 2 (second d)
            +:+ (if microsecond d =? 0 then "" else "." +:+ zero_pad 6 (microsecond d)))
           +:+ match tzinfo d with
               | None => ""
               | Some offset => format_offset offset
               end).
Proof. unfold isoformat. rewrite !append_assoc. reflexivity. Qed.

Lemma storable_fromisoformat_isoformat d :
  storable d = true -> fromisoformat (isoformat d) = Some d.
Proof.
  unfold storable. intros Hs. apply andb_prop in Hs as [Hv Htz].
  pose proof (valid_fields_ranges d Hv) as (Hy & Hm & Hd & HH & HM & HS & Hus).
  pose proof (days_in_month_bound (year d) (month d)) as Hdim.
  pose proof (time_text_no_sign (hour d) (minute d) (second d) (microsecond d)) as Hns.
  pose proof (fun followed =>
                parse_hh_mm_ss_ff_full (hour d) (minute d) (second d) (microsecond d)
                  followed ltac:(lia) ltac:(lia) ltac:(lia) ltac:(lia)) as Htime.
  rewrite isoformat_parts.
  set (time := zero_pad 2 (hour d) +:+ _) in *.
  unfold fromisoformat.
  rewrite parse_zero_pad by (simpl; lia). step_literal. cbn [expect].
  change (ascii_eqb "-" "-") with true. cbv iota.
  rewrite parse_zero_pad by (simpl; lia). step_literal. cbn [expect].
  change (ascii_eqb "-" "-") with true. cbv iota.
  rewrite parse_zero_pad by (simpl; lia).
  destruct (tzinfo d) as [offset|] eqn:Htzinfo.
  - apply andb_prop in Htz as [Hrange Hplain].
    pose proof (parse_format_offset time offset _ _ _ _ Hrange Hplain Hns (Htime true))
      as Hp.
    destruct (parse_isoformat_time _) as [[[[[H' M'] sec'] us'] zone]|]; [|contradiction].
    destruct Hp as [[= -> -> -> ->] ->]. rewrite <- Htzinfo.
    apply make_datetime_tz_valid, Hv.
  - rewrite append_nil_r. unfold parse_isoformat_time.
    rewrite (split_sign_none _ Hns), (Htime false).
    cbv iota. cbn [tzinfo_from_isoformat_results].
    rewrite <- Htzinfo. apply make_datetime_tz_valid, Hv.
Qed.


End DatetimeFacts.

Module LineFacts.
Import Text Datetime TextFacts DatetimeFacts.

Lemma not_space_not_newline c :
  not_space c = true -> negb (ascii_eqb c LF) && negb (ascii_eqb c CR) = true.
Proof.
  unfold not_space, ascii_eqb. intros H.
  destruct (Ascii.eqb_spec c LF) as [->|_]; [discriminate H|].
  destruct (Ascii.eqb_spec c CR) as [->|_]; [discriminate H|]. reflexivity.
Qed.

Lemma zero_pad_not_space n : forall v, all_chars not_space (zero_pad n v) = true.
Proof.
  induction n as [|n IH]; intros v; [reflexivity|].
  simpl. rewrite all_chars_app, IH. simpl.
  destruct (digit_char_spec (v mod 10)) as (_ & _ & Hs & _).
  { pose proof (Z.mod_pos_bound v 10). lia. }
  unfold not_space. rewrite Hs. reflexivity.
Qed.

Lemma format_offset_not_space offset : all_chars not_space (format_offset offset) = true.
Proof.
  unfold format_offset.
  destruct (offset <? 0); destruct (_ =? 0); try destruct (_ =? 0);
    rewrite !all_chars_app, !zero_pad_not_space; reflexivity.
Qed.

Lemma isoformat_not_space d : all_chars not_space (isoformat d) = true.
Proof.
  unfold isoformat.
  destruct (microsecond d =? 0); destruct (tzinfo d);
    rewrite !all_chars_app, !zero_pad_not_space, ?format_offset_not_space; reflexivity.
Qed.

Lemma isoformat_not_empty d : isoformat d <> "".
Proof.
  unfold isoformat. simpl zero_pad. rewrite !append_assoc, !append_cons. discriminate.
Qed.

Lemma lstrip_not_space s t :
  all_chars not_space s = true -> s <> "" -> lstrip (s +:+ t) = s +:+ t.
Proof.
  destruct s as [|c s]; [congruence|]. simpl. intros H _.
  apply andb_prop in H as [Hc _]. rewrite ?append_cons. simpl.
  unfold not_space in Hc. destruct (is_space c); [discriminate|reflexivity].
Qed.

Lemma rstrip_line s :
  all_chars not_space s = true -> rstrip (s +:+ String LF "") = s.
Proof.
  induction s as [|c s IH]; [reflexivity|].
  simpl. intros H. apply andb_prop in H as [Hc Hs].
  rewrite ?append_cons. simpl. rewrite (IH Hs).
  unfold not_space in Hc. destruct s; [|reflexivity].
  destruct (is_space c); [discriminate|reflexivity].
Qed.

Lemma strip_line s :
  all_chars not_space s = true -> strip (s +:+ String LF "") = s.
Proof.
  intros H. unfold strip. destruct s as [|c s]; [reflexivity|].
  rewrite lstrip_not_space by (auto; discriminate). apply rstrip_line, H.
Qed.

Lemma readlines_not_nil s : s <> "" -> readlines s <> [].
Proof.
  destruct s as [|c s]; [congruence|]. intros _. simpl.
  destruct (ascii_eqb c LF); [discriminate|].
  destruct (ascii_eqb c CR).
  - destruct s as [|c' s]; [discriminate|]. destruct (ascii_eqb c' LF); discriminate.
  - destruct (readlines s); discriminate.
Qed.

Lemma readlines_one_line s :
  no_newline s = true -> readlines (s +:+ String LF "") = [s +:+ String LF ""].
Proof.
  unfold no_newline. induction s as [|c s IH]; [reflexivity|].
  simpl. intros H. apply andb_prop in H as [Hc Hs].
  apply andb_prop in Hc as [Hlf Hcr].
  rewrite ?append_cons. simpl.
  destruct (ascii_eqb c LF); [discriminate|].
  destruct (ascii_eqb c CR); [discriminate|].
  rewrite (IH Hs). reflexivity.
Qed.

Lemma ends_lines_cons c s :
  s <> "" -> ends_lines (String c s) = ends_lines s.
Proof. destruct s; [congruence|reflexivity]. Qed.

Lemma readlines_append_line_len n : forall prior line,
  (String.length prior <= n)%nat ->
  ends_lines prior = true -> no_newline line = true -> line <> "" ->
  readlines (prior +:+ line +:+ String LF "") = readlines prior ++ [line +:+ String LF ""].
Proof.
  induction n as [|n IH]; intros prior line Hlen Hends Hline Hne.
  - destruct prior; [|simpl in Hlen; lia]. rewrite append_nil_l.
    apply readlines_one_line, Hline.
  - destruct prior as [|c p]; [rewrite append_nil_l; apply readlines_one_line, Hline|].
    simpl in Hlen. rewrite ?append_cons.
    assert (Hp : forall q, (String.length q <= String.length p)%nat -> ends_lines q = true ->
                 readlines (q +:+ line +:+ String LF "") = readlines q ++ [line +:+ String LF ""]).
    { intros q Hq Hq'. apply IH; auto. lia. }
    assert (Hsub : p <> "" -> ends_lines p = true).
    { intros Hp'. rewrite <- (ends_lines_cons c) by assumption. exact Hends. }
    cbn [readlines].
    destruct (ascii_eqb c LF) eqn:Hlf.
    + destruct p as [|c' p'].
      * rewrite append_nil_l, readlines_one_line by assumption. reflexivity.
      * rewrite Hp; [reflexivity|lia|]. apply Hsub. discriminate.
    + destruct (ascii_eqb c CR) eqn:Hcr.
      * destruct p as [|c' p'].
        -- rewrite append_nil_l. destruct line as [|l0 line']; [congruence|].
           rewrite ?append_cons. unfold no_newline in Hline. simpl in Hline.
           apply andb_prop in Hline as [Hl0 Hl']. apply andb_prop in Hl0 as [Hl0 Hl0'].
           destruct (ascii_eqb l0 LF) eqn:E1; [discriminate|].
           destruct (ascii_eqb l0 CR) eqn:E2; [discriminate|].
           rewrite <- append_cons, readlines_one_line; [reflexivity|].
           unfold no_newline. simpl. rewrite E1, E2. exact Hl'.
        -- rewrite ?append_cons. destruct (ascii_eqb c' LF) eqn:Hlf'.
           ++ destruct p' as [|c'' p''].
              ** rewrite append_nil_l, readlines_one_line by assumption. reflexivity.
              ** rewrite Hp; [reflexivity|simpl; lia|].
                 rewrite <- (ends_lines_cons c') by discriminate. apply Hsub. discriminate.
           ++ rewrite <- append_cons. rewrite Hp; [reflexivity|lia|]. apply Hsub. discriminate.
      * destruct p as [|c' p'].
        { simpl in Hends. rewrite Hlf, Hcr in Hends. discriminate. }
        rewrite Hp; [|lia|apply Hsub; discriminate].
        pose proof (readlines_not_nil (String c' p')) as Hnn.
        destruct (readlines (String c' p')) as [|l ls]; [exfalso; apply Hnn; [discriminate|reflexivity]|].
        reflexivity.
Qed.

Lemma readlines_append_line prior line :
  ends_lines prior = true -> no_newline line = true -> line <> "" ->
  readlines (prior +:+ line +:+ String LF "") = readlines prior ++ [line +:+ String LF ""].
Proof. apply (readlines_append_line_len (String.length prior)). lia. Qed.

End LineFacts.

Module TimeFacts.
Import Text Datetime Effects Connector.

Lemma make_datetime_some y m d H M S us t :
  make_datetime y m d H M S us = Some t ->
  valid_datetime t = true /\ microsecond t = us.
Proof.
  unfold make_datetime. destruct (valid_datetime _) eqn:Hv; [|discriminate].
  intros [= <-]. auto.
Qed.

Lemma strptime_some s t :
  strptime s = Some t -> valid_datetime t = true /\ microsecond t = 0.
Proof.
  unfold strptime. intros H.
  repeat match type of H with
         | context [match ?x with _ => _ end] =>
             destruct x eqn:?; try discriminate H
         end.
  exact (make_datetime_some _ _ _ _ _ _ _ _ H).
Qed.

Lemma is_digit_val c : is_digit c = true -> 0 <= digit_val c <= 9.
Proof.
  unfold is_digit, digit_val. intros H. apply andb_prop in H as [H1 H2].
  apply Nat.leb_le in H1, H2. lia.
Qed.

Lemma fraction_digits_bound n : forall s, 0 <= fraction_digits n s < 10 ^ Z.of_nat n.
Proof.
  induction n as [|n IH]; intros s; [simpl; lia|].
  rewrite Nat2Z.inj_succ, Z.pow_succ_r by lia. cbn [fraction_digits].
  assert (0 < 10 ^ Z.of_nat n) by (apply Z.pow_pos_nonneg; lia).
  destruct s as [|c s]; [lia|].
  destruct (is_digit c) eqn:Hc; [|lia].
  pose proof (is_digit_val c Hc). pose proof (IH s). nia.
Qed.

Lemma to_micro_with_microsecond t us :
  to_micro (with_microsecond t us) = to_micro t - microsecond t + us.
Proof. unfold to_micro, toordinal, with_microsecond. simpl. lia. Qed.

(** The time the connector records for a record is the reported time cut
    down to the whole second. *)
Lemma update_time_truncates u t :
  update_time_of u = Some t ->
  microsecond t = 0 /\
  exists d, reported_time (UpdateTime u) = Some d /\
            t = with_microsecond d 0 /\
            to_micro t <= to_micro d < to_micro t + 1000000.
Proof.
  unfold update_time_of, reported_time. intros H. rewrite H.
  destruct (strptime_some _ _ H) as [_ Hus]. split; [exact Hus|].
  eexists. split; [reflexivity|].
  split.
  - destruct t; simpl in *. subst. reflexivity.
  - rewrite to_micro_with_microsecond, Hus.
    pose proof (fraction_digits_bound 6 (split_tail "." (UpdateTime u))) as Hb.
    change (10 ^ Z.of_nat 6) with 1000000 in Hb. lia.
Qed.

End TimeFacts.

(** ** The loops of a pass *)

Module Soundness.
Import Text Datetime Effects Connector Trace.

Section WithEnv.
Context {World : Type} (env : Env World).

Lemma candidate_cons c u us t :
  update_time_of u = Some t -> candidate c (u :: us) = candidate t us.
Proof. intros H. unfold candidate. simpl. rewrite H. reflexivity. Qed.

Lemma updates_run_cons c u t us r c' evs :
  update_time_of u = Some t ->
  updates_run t us r c' evs ->
  updates_run c (u :: us) r c' (ok_events u ++ evs).
Proof.
  intros Hu Hrun. assert (parses u) as Hp by (unfold parses; rewrite Hu; eauto).
  destruct Hrun as [Hall | pre v post Hus Hall Hv | pre v post e Hus Hall Hv].
  - rewrite <- (candidate_cons c u us t Hu).
    change (ok_events u ++ flat_map ok_events us) with (flat_map ok_events (u :: us)).
    apply UpdatesDone. constructor; assumption.
  - rewrite <- (candidate_cons c u pre t Hu).
    change (ok_events u ++ flat_map ok_events pre) with (flat_map ok_events (u :: pre)).
    apply (UpdatesBadTime c (u :: us) (u :: pre) v post); [subst us; reflexivity| |assumption].
    constructor; assumption.
  - rewrite <- (candidate_cons c u pre t Hu).
    rewrite app_assoc.
    change (ok_events u ++ flat_map ok_events pre) with (flat_map ok_events (u :: pre)).
    apply (UpdatesFailed c (u :: us) (u :: pre) v post); [subst us; reflexivity| |assumption].
    constructor; assumption.
Qed.

Lemma sync_video_by_id_events h tok cfg v (s : State World) :
  events_of (sync_video_by_id env h tok cfg v s) = [].
Proof.
  unfold events_of, sync_video_by_id, get_video_content, bind, call.
  destruct (get_content env _ _ _ (world s)) as [[vc|e] w1]; simpl; [|reflexivity].
  destruct (Deleted vc); simpl.
  - destruct (delete_from_target env h (Id vc) w1) as [r w2]; reflexivity.
  - destruct (convert_to_target env h vc w1) as [[tc|e] w2]; simpl; [|reflexivity].
    destruct (push_to_target env h tc cfg w2) as [r w3]; reflexivity.
Qed.

Lemma for_updates_cons h tok cfg u us fr (s : State World) :
  for_updates env h tok cfg (u :: us) (fr, s) =
  match update_time_of u with
  | None => (Raise (bad_time u), (fr, s), [])
  | Some t =>
      match sync_video_by_id env h tok cfg (VideoId u) s with
      | (Ok _, s1, _) =>
          match for_updates env h tok cfg us
                  (mk_frame (next_token fr) t,
                   mk_state (sleep env (seconds 2) (world s1)) (files s1)) with
          | (r, fs, evs) => (r, fs, ok_events u ++ evs)
          end
      | (Raise e, s1, _) => (Raise e, (fr, s1), [EvSyncVideo (VideoId u) (Some e)])
      end
  end.
Proof.
  cbn [for_updates].
  unfold bind, ret, raise, in_frame, zoom, traced, set_new_last_update_time,
    time_sleep, call, emit, bind.
  destruct (update_time_of u); [|reflexivity]. cbn [fst snd].
  pose proof (sync_video_by_id_events h tok cfg (VideoId u) s) as Hev.
  destruct (sync_video_by_id env h tok cfg (VideoId u) s) as [[[[]|e] s1] evs1];
    unfold events_of in Hev; cbn [fst snd] in *; subst evs1.
  - destruct (for_updates env h tok cfg us _) as [[r [fr2 s2]] evs2]. reflexivity.
  - destruct fr; reflexivity.
Qed.

Lemma for_updates_sound h tok cfg us : forall fr (s : State World),
  let x := for_updates env h tok cfg us (fr, s) in
  updates_run (new_last_update_time fr) us (res_of x)
              (new_last_update_time (fst (state_of x))) (events_of x)
  /\ next_token (fst (state_of x)) = next_token fr.
Proof.
  induction us as [|u us IH]; intros fr s.
  - simpl. split; [|reflexivity]. apply (UpdatesDone _ []). constructor.
  - rewrite for_updates_cons.
    destruct (update_time_of u) as [t|] eqn:Hu.
    + destruct (sync_video_by_id env h tok cfg (VideoId u) s) as [[[[]|e] s1] evs1].
      * specialize (IH (mk_frame (next_token fr) t)
                       (mk_state (sleep env (seconds 2) (world s1)) (files s1))).
        destruct (for_updates env h tok cfg us _) as [[r2 [fr2 s2]] evs2].
        unfold res_of, state_of, events_of in *. cbn [fst snd] in *.
        destruct IH as [IHrun IHtok]. split; [|exact IHtok].
        apply (updates_run_cons _ _ t); assumption.
      * unfold res_of, state_of, events_of. cbn [fst snd]. split; [|reflexivity].
        apply (UpdatesFailed _ (u :: us) [] u us e); [reflexivity|constructor|].
        unfold parses. rewrite Hu. eauto.
    + unfold res_of, state_of, events_of. cbn [fst snd]. split; [|reflexivity].
      apply (UpdatesBadTime _ (u :: us) [] u us); [reflexivity|constructor|assumption].
Qed.

Lemma for_range_succ n h tok cfg w fr (s : State World) :
  for_range env (S n) h tok cfg w (fr, s) =
  match get_ids_to_update env tok (panopto_site_address cfg) w (next_token fr) s with
  | (Raise e, s1, _) => (Raise e, (fr, s1), [EvGetIds w (next_token fr) (Raise e)])
  | (Ok resp, s1, _) =>
      match for_updates env h tok cfg (Updates resp) (fr, s1) with
      | (Raise e, fs, evs) => (Raise e, fs, EvGetIds w (next_token fr) (Ok resp) :: evs)
      | (Ok _, (fr2, s2), evs) =>
          let fr3 := mk_frame (NextToken resp) (new_last_update_time fr2) in
          match NextToken resp with
          | None => (Ok tt, (fr3, s2), EvGetIds w (next_token fr) (Ok resp) :: evs)
          | Some _ =>
              match for_range env n h tok cfg w (fr3, s2) with
              | (r, fs, evs') => (r, fs, EvGetIds w (next_token fr) (Ok resp) :: evs ++ evs')
              end
          end
      end
  end.
Proof.
  cbn [for_range].
  unfold bind, ret, raise, in_frame, zoom, traced, get_next_token, set_next_token,
    get_ids_to_update, call. cbn [fst snd].
  destruct (get_updates env _ w (next_token fr) _ (world s)) as [[resp|e] w1];
    cbn [fst snd]; [|destruct fr; reflexivity].
  destruct (for_updates env h tok cfg (Updates resp) _) as [[[[]|e] [fr2 s2]] evs];
    cbn [fst snd]; [|reflexivity].
  destruct (NextToken resp) as [tok'|].
  - destruct (for_range env n h tok cfg w _) as [[r fs] evs']. reflexivity.
  - rewrite app_nil_r. reflexivity.
Qed.

Lemma for_range_sound n h tok cfg w : forall fr (s : State World),
  let x := for_range env n h tok cfg w (fr, s) in
  pass_run w n (next_token fr) (new_last_update_time fr) (res_of x)
           (new_last_update_time (fst (state_of x))) (events_of x).
Proof.
  induction n as [|n IH]; intros fr s.
  - simpl. apply PassCeiling.
  - rewrite for_range_succ.
    destruct (get_ids_to_update env tok _ w (next_token fr) s) as [[[resp|e] s1] evs0].
    + pose proof (for_updates_sound h tok cfg (Updates resp) fr s1) as [Hrun Htok].
      destruct (for_updates env h tok cfg (Updates resp) (fr, s1))
        as [[[[]|e] [fr2 s2]] evs].
      * unfold res_of, state_of, events_of in Hrun, Htok. cbn [fst snd] in Hrun, Htok.
        cbv zeta. destruct (NextToken resp) as [tok'|] eqn:Hnext.
        -- specialize (IH (mk_frame (Some tok') (new_last_update_time fr2)) s2).
           destruct (for_range env n h tok cfg w _) as [[r fs] evs'].
           unfold res_of, state_of, events_of in *. cbn [fst snd] in *.
           eapply PassNextPage; eassumption.
        -- unfold res_of, state_of, events_of. cbn [fst snd].
           apply PassLastPage; assumption.
      * unfold res_of, state_of, events_of in *. cbn [fst snd] in *.
        apply PassItemFailed; assumption.
    + unfold res_of, state_of, events_of. cbn [fst snd]. apply PassEnumFailed.
Qed.

Lemma get_oauth_token_events site creds (s : State World) :
  events_of (get_oauth_token env site creds s) = [].
Proof.
  unfold get_oauth_token, call, events_of.
  destruct (post_token env _ _ (world s)) as [r w1]. reflexivity.
Qed.

Theorem sync_sound cfg w (s : State World) :
  sync_run w (res_of (sync env cfg w s)) (events_of (sync env cfg w s)).
Proof.
  unfold sync, bind, traced, call, datetime_utcnow.
  destruct (target_handler env cfg (world s)) as [[h|e] w1]; cbn [as_exn];
    [|apply SyncNoHandler].
  pose proof (get_oauth_token_events (panopto_site_address cfg)
                (panopto_oauth_credentials cfg) (mk_state w1 (files s))) as Hev.
  destruct (get_oauth_token env _ _ _) as [[[tok|e] s2] evs2];
    unfold events_of in Hev; cbn [fst snd] in Hev; subst evs2; cbn [as_exn];
    [|apply SyncNoToken].
  destruct (utcnow env (world s2)) as [t0 w3].
  pose proof (for_range_sound 1000 h tok cfg w (mk_frame None w) (mk_state w3 (files s2)))
    as Hrun.
  destruct (for_range env 1000 h tok cfg w _) as [[r [fr s']] evs].
  unfold res_of, state_of, events_of in *. cbn [fst snd] in *.
  pose proof (SyncPass w tok t0 r (new_last_update_time fr) evs Hrun) as Hs.
  destruct r; exact Hs.
Qed.

End WithEnv.
End Soundness.

Module PassFacts.
Import Text Datetime Effects Connector Trace Soundness.

(** *** Projections of traces *)

Lemma get_ids_results_app a b :
  get_ids_results (a ++ b) = get_ids_results a ++ get_ids_results b.
Proof. apply omap_app. Qed.

Lemma sync_results_app a b : sync_results (a ++ b) = sync_results a ++ sync_results b.
Proof. apply omap_app. Qed.

Lemma applied_app a b : applied (a ++ b) = applied a ++ applied b.
Proof. apply omap_app. Qed.

Lemma enumerated_app a b : enumerated (a ++ b) = enumerated a ++ enumerated b.
Proof. apply flat_map_app. Qed.

Lemma clock_readings_app a b : clock_readings (a ++ b) = clock_readings a ++ clock_readings b.
Proof. apply omap_app. Qed.

Lemma sleeps_app a b : sleeps (a ++ b) = sleeps a ++ sleeps b.
Proof. apply omap_app. Qed.

Lemma ok_events_projections us :
  get_ids_results (flat_map ok_events us) = [] /\
  enumerated (flat_map ok_events us) = [] /\
  clock_readings (flat_map ok_events us) = [] /\
  warnings (flat_map ok_events us) = [] /\
  saved (flat_map ok_events us) = [] /\
  sync_results (flat_map ok_events us) = map sync_ok us /\
  applied (flat_map ok_events us) = map VideoId us /\
  sleeps (flat_map ok_events us) = map (fun _ => seconds 2) us.
Proof.
  repeat split; (induction us as [|u us IH]; [reflexivity|]);
    (exact IH || (simpl; f_equal; exact IH)).
Qed.

Lemma ok_events_no_failure us v e : ~ In (EvSyncVideo v (Some e)) (flat_map ok_events us).
Proof.
  induction us as [|u us IH]; simpl; [tauto|].
  intros [H|[H|H]]; [discriminate H|discriminate H|exact (IH H)].
Qed.

Lemma ok_events_no_enumeration us f t r : ~ In (EvGetIds f t r) (flat_map ok_events us).
Proof.
  induction us as [|u us IH]; simpl; [tauto|].
  intros [H|[H|H]]; [discriminate H|discriminate H|exact (IH H)].
Qed.

Lemma enumerated_get_ids f t resp evs :
  enumerated (EvGetIds f t (Ok resp) :: evs) = Updates resp ++ enumerated evs.
Proof. reflexivity. Qed.

Lemma applied_get_ids f t r evs : applied (EvGetIds f t r :: evs) = applied evs.
Proof. reflexivity. Qed.

Lemma sync_results_get_ids f t r evs :
  sync_results (EvGetIds f t r :: evs) = sync_results evs.
Proof. reflexivity. Qed.

(** *** The inner loop *)

Lemma updates_run_ok c us c' evs :
  updates_run c us (Ok tt) c' evs ->
  Forall parses us /\ c' = candidate c us /\ evs = flat_map ok_events us.
Proof. inversion 1; subst; auto. Qed.

Lemma updates_run_raise c us e c' evs :
  updates_run c us (Raise e) c' evs ->
  exists pre u post,
    us = pre ++ u :: post /\ Forall parses pre /\ c' = candidate c pre /\
    (evs = flat_map ok_events pre /\ update_time_of u = None /\ e = bad_time u
     \/ evs = flat_map ok_events pre ++ [EvSyncVideo (VideoId u) (Some e)] /\ parses u).
Proof.
  inversion 1; subst.
  - exists pre, u, post. auto 10.
  - exists pre, u, post. auto 10.
Qed.

Lemma candidate_app c us vs : candidate c (us ++ vs) = candidate (candidate c us) vs.
Proof. apply fold_left_app. Qed.

Lemma candidate_snoc c us u t :
  update_time_of u = Some t -> candidate c (us ++ [u]) = t.
Proof. intros H. rewrite candidate_app. unfold candidate at 1. simpl. rewrite H. reflexivity. Qed.

(** *** The pass *)

(** The records applied by a pass are the first ones it was given, in
    order, and the candidate it ends with is the one they leave. *)
Lemma pass_run_progress from n tok c r c' evs :
  pass_run from n tok c r c' evs ->
  exists done rest,
    enumerated evs = done ++ rest /\ Forall parses done /\ c' = candidate c done /\
    applied evs = map VideoId done /\ (r = Ok tt -> rest = []).
Proof.
  induction 1 as [tok c | n tok c e | n tok c resp e c' evs Hu
                  | n tok c resp c' evs Hnext Hu
                  | n tok c resp tok' c' evs r c'' evs' Hnext Hu Hrun IH].
  - exists [], []. repeat split; auto.
  - exists [], []. repeat split; auto.
  - apply updates_run_raise in Hu as (pre & u & post & Hus & Hall & Hc & Hevs).
    destruct (ok_events_projections pre) as (_ & E2 & _ & _ & _ & _ & E7 & _).
    exists pre, (u :: post). rewrite enumerated_get_ids, applied_get_ids.
    assert (enumerated evs = [] /\ applied evs = map VideoId pre) as [He Ha].
    { destruct Hevs as [(-> & _) | (-> & _)]; [auto|].
      rewrite enumerated_app, applied_app, E2, E7. cbn. rewrite app_nil_r. auto. }
    rewrite He, app_nil_r. repeat split; auto. discriminate.
  - apply updates_run_ok in Hu as (Hall & Hc & ->).
    destruct (ok_events_projections (Updates resp)) as (_ & E2 & _ & _ & _ & _ & E7 & _).
    exists (Updates resp), []. rewrite enumerated_get_ids, applied_get_ids, E2.
    repeat split; auto.
  - apply updates_run_ok in Hu as (Hall & Hc & ->).
    destruct IH as (done & rest & He & Hd & Hc' & Ha & Hr).
    destruct (ok_events_projections (Updates resp)) as (_ & E2 & _ & _ & _ & _ & E7 & _).
    exists (Updates resp ++ done), rest.
    rewrite enumerated_get_ids, applied_get_ids.
    rewrite enumerated_app, applied_app, E2, E7, He, Ha, map_app, candidate_app, <- Hc.
    cbn [app]. rewrite app_assoc. repeat split; auto.
    apply Forall_app; auto.
Qed.

Lemma last_cons_some {A} (x y : A) l : last l = Some y -> last (x :: l) = Some y.
Proof. intros H. rewrite last_cons, H. reflexivity. Qed.

Lemma last_app_some {A} (y : A) l1 l2 : last l2 = Some y -> last (l1 ++ l2) = Some y.
Proof. intros H. rewrite last_app, H. reflexivity. Qed.

(** An item whose synchronisation raises ends the pass there and then:
    the exception leaves the loops, and the candidate is the one left by
    the records applied before it. *)
Lemma pass_run_item_failure from n tok c r c' evs :
  pass_run from n tok c r c' evs ->
  forall v e, In (EvSyncVideo v (Some e)) evs ->
    r = Raise e /\ last evs = Some (EvSyncVideo v (Some e)) /\
    exists done u post,
      enumerated evs = done ++ u :: post /\ VideoId u = v /\ parses u /\
      Forall parses done /\ c' = candidate c done /\
      applied evs = map VideoId done /\
      sync_results evs = map sync_ok done ++ [(v, Some e)].
Proof.
  induction 1 as [tok c | n tok c e0 | n tok c resp e0 c' evs Hu
                  | n tok c resp c' evs Hnext Hu
                  | n tok c resp tok' c' evs r c'' evs' Hnext Hu Hrun IH];
    intros v e Hin.
  - destruct Hin as [Hin|[]]. discriminate Hin.
  - destruct Hin as [Hin|[]]. discriminate Hin.
  - destruct Hin as [Hin|Hin]; [discriminate Hin|].
    apply updates_run_raise in Hu as (pre & u & post & Hus & Hall & Hc & Hevs).
    destruct (ok_events_projections pre) as (_ & E2 & _ & _ & _ & E6 & E7 & _).
    destruct Hevs as [(-> & _) | (-> & Hp)];
      [exfalso; exact (ok_events_no_failure _ _ _ Hin)|].
    apply in_app_or in Hin as [Hin|[Hin|[]]];
      [exfalso; exact (ok_events_no_failure _ _ _ Hin)|].
    injection Hin as <- <-.
    split; [reflexivity|]. split; [apply last_cons_some, last_snoc|].
    exists pre, u, post.
    rewrite enumerated_get_ids, applied_get_ids, sync_results_get_ids.
    rewrite enumerated_app, applied_app, sync_results_app, E2, E6, E7.
    cbn. rewrite !app_nil_r. repeat split; auto.
  - apply updates_run_ok in Hu as (Hall & Hc & ->).
    destruct Hin as [Hin|Hin]; [discriminate Hin|].
    exfalso; exact (ok_events_no_failure _ _ _ Hin).
  - apply updates_run_ok in Hu as (Hall & Hc & ->).
    destruct Hin as [Hin|Hin]; [discriminate Hin|].
    apply in_app_or in Hin as [Hin|Hin];
      [exfalso; exact (ok_events_no_failure _ _ _ Hin)|].
    destruct (IH v e Hin) as (Hr & Hlast & done & u & post & He & Hv & Hp & Hd & Hc' & Ha & Hs).
    destruct (ok_events_projections (Updates resp)) as (_ & E2 & _ & _ & _ & E6 & E7 & _).
    split; [exact Hr|]. split; [apply last_cons_some, last_app_some, Hlast|].
    exists (Updates resp ++ done), u, post.
    rewrite enumerated_get_ids, applied_get_ids, sync_results_get_ids.
    rewrite enumerated_app, applied_app, sync_results_app, E2, E6, E7, He, Ha, Hs.
    rewrite !map_app, candidate_app, <- Hc, <- !app_assoc. cbn [app].
    repeat split; auto. apply Forall_app; auto.
Qed.

(** An enumeration call that raises ends the pass there and then. *)
Lemma pass_run_enum_failure from n tok c r c' evs :
  pass_run from n tok c r c' evs ->
  forall f t e, In (EvGetIds f t (Raise e)) evs ->
    r = Raise e /\ last evs = Some (EvGetIds f t (Raise e)) /\
    Forall parses (enumerated evs) /\ c' = candidate c (enumerated evs) /\
    applied evs = map VideoId (enumerated evs).
Proof.
  induction 1 as [tok c | n tok c e0 | n tok c resp e0 c' evs Hu
                  | n tok c resp c' evs Hnext Hu
                  | n tok c resp tok' c' evs r c'' evs' Hnext Hu Hrun IH];
    intros f t e Hin.
  - destruct Hin as [Hin|[]]. discriminate Hin.
  - destruct Hin as [Hin|[]]. injection Hin as <- <- <-.
    repeat split; auto.
  - destruct Hin as [Hin|Hin]; [discriminate Hin|].
    apply updates_run_raise in Hu as (pre & u & post & Hus & Hall & Hc & Hevs).
    exfalso. destruct Hevs as [(-> & _) | (-> & Hp)].
    + exact (ok_events_no_enumeration _ _ _ _ Hin).
    + apply in_app_or in Hin as [Hin|[Hin|[]]]; [|discriminate Hin].
      exact (ok_events_no_enumeration _ _ _ _ Hin).
  - apply updates_run_ok in Hu as (Hall & Hc & ->).
    destruct Hin as [Hin|Hin]; [discriminate Hin|].
    exfalso; exact (ok_events_no_enumeration _ _ _ _ Hin).
  - apply updates_run_ok in Hu as (Hall & Hc & ->).
    destruct Hin as [Hin|Hin]; [discriminate Hin|].
    apply in_app_or in Hin as [Hin|Hin];
      [exfalso; exact (ok_events_no_enumeration _ _ _ _ Hin)|].
    destruct (IH f t e Hin) as (Hr & Hlast & Hd & Hc' & Ha).
    destruct (ok_events_projections (Updates resp)) as (_ & E2 & _ & _ & _ & E6 & E7 & _).
    split; [exact Hr|]. split; [apply last_cons_some, last_app_some, Hlast|].
    rewrite enumerated_get_ids, applied_get_ids.
    rewrite enumerated_app, applied_app, E2, E7, Ha.
    rewrite !map_app, candidate_app, <- Hc. cbn [app].
    repeat split; auto. apply Forall_app; auto.
Qed.

End PassFacts.

Module SyncFacts.
Import Text Datetime Effects Connector Trace Soundness PassFacts.

Lemma sync_run_pass w r evs :
  sync_run w r evs ->
  (exists e, r = Raise e /\ (evs = [EvTargetHandler (Some e)]
                            \/ evs = [EvTargetHandler None; EvGetOauthToken (Raise e)]))
  \/ exists tok t0 rl c body,
       evs = EvTargetHandler None :: EvGetOauthToken (Ok tok) :: EvUtcNow t0 :: body /\
       pass_run w 1000 None w rl c body /\
       r = Ok (match rl with Ok _ => t0 | Raise _ => c end, as_exn rl).
Proof.
  destruct 1 as [e | e | tok t0 rl c body Hrun].
  - left. exists e. auto.
  - left. exists e. auto.
  - right. exists tok, t0, rl, c, body. auto.
Qed.

(** A pass whose trace holds an item that raised, after [S k] items were
    applied. *)
Lemma sync_run_partial w r evs v e k :
  sync_run w r evs ->
  In (EvSyncVideo v (Some e)) evs ->
  length (applied evs) = S k ->
  last evs = Some (EvSyncVideo v (Some e)) /\
  sync_results evs = map sync_ok (take (S k) (enumerated evs)) ++ [(v, Some e)] /\
  (exists u, enumerated evs !! S k = Some u /\ VideoId u = v) /\
  exists uK tK,
    enumerated evs !! k = Some uK /\ update_time_of uK = Some tK /\
    r = Ok (tK, Some e).
Proof.
  intros Hs Hin Hlen.
  apply sync_run_pass in Hs as [(e0 & -> & [-> | ->]) | (tok & t0 & rl & c & body & -> & Hrun & ->)].
  - destruct Hin as [Hin|[]]; discriminate Hin.
  - destruct Hin as [Hin|[Hin|[]]]; discriminate Hin.
  - destruct Hin as [Hin|[Hin|[Hin|Hin]]]; try discriminate Hin.
    destruct (pass_run_item_failure _ _ _ _ _ _ _ Hrun v e Hin)
      as (-> & Hlast & done & u & post & He & Hv & Hp & Hd & -> & Ha & Hsr).
    change (applied (_ :: _ :: _ :: body)) with (applied body) in Hlen.
    change (enumerated (_ :: _ :: _ :: body)) with (enumerated body).
    change (sync_results (_ :: _ :: _ :: body)) with (sync_results body).
    rewrite Ha, length_map in Hlen.
    split; [do 3 apply last_cons_some; exact Hlast|].
    rewrite He, <- Hlen, take_app_length. split; [exact Hsr|].
    split; [exists u; split; [apply list_lookup_middle; reflexivity | exact Hv]|].
    destruct (exists_last (l:=done)) as (done' & uK & ->).
    { intros ->. discriminate Hlen. }
    apply Forall_app in Hd as [_ HuK]. apply Forall_inv in HuK as [tK HtK].
    exists uK, tK. rewrite length_app in Hlen. simpl in Hlen.
    split; [|split; [exact HtK|]].
    + rewrite <- app_assoc. apply list_lookup_middle. lia.
    + cbn [as_exn]. rewrite (candidate_snoc _ _ _ _ HtK). reflexivity.
Qed.


End SyncFacts.

Module ScenarioFacts.
Import Text Datetime Effects Connector Trace Soundness PassFacts SyncFacts.




End ScenarioFacts.

(** ** The polling loop *)

Module RunFacts.
Import Text Datetime Effects Connector Trace Soundness PassFacts SyncFacts.

Section WithEnv.
Context {World : Type} (env : Env World).

Lemma wait_eq d (s : State World) :
  wait env d s =
  (Ok tt,
   if d <=? 0 then s else mk_state (sleep env d (world s)) (files s),
   wait_events d).
Proof.
  unfold wait, wait_events. destruct (d <=? 0); reflexivity.
Qed.

Lemma run_once_eq cfg w (s : State World) :
  run_once env cfg w s =
  match utcnow env (world s) with
  | (t, w1) =>
    match sync env cfg w (mk_state w1 (files s)) with
    | (Raise e, s1, evs) => (Raise e, s1, EvUtcNow t :: evs)
    | (Ok (wm, Some e), s1, evs) =>
        (Ok wm,
         state_of (wait env (polling_retry_minimum cfg) (saved_state env wm cfg s1)),
         EvUtcNow t :: evs ++ log_failure e :: save_event env cfg wm
                  :: wait_events (polling_retry_minimum cfg))
    | (Ok (wm, None), s1, evs) =>
        match remaining_after env t (polling_frequency cfg) s1 with
        | (Raise e, s2, evs2) => (Raise e, s2, EvUtcNow t :: evs ++ evs2)
        | (Ok d, s2, evs2) =>
            (Ok wm,
             state_of (wait env d (saved_state env wm cfg s2)),
             EvUtcNow t :: evs ++ evs2 ++ save_event env cfg wm :: wait_events d)
        end
    end
  end.
Proof.
  unfold run_once, bind at 1, datetime_utcnow at 1.
  destruct (utcnow env (world s)) as [t w1].
  unfold bind at 1.
  destruct (sync env cfg w (mk_state w1 (files s))) as [[[[wm [e|]]|e] s1] evs];
    cbn [fst snd]; [| |reflexivity].
  - unfold bind, emit, ret, saved_state, state_of, save_event, save_last_update_time.
    cbn [fst snd]. rewrite !wait_eq. cbn [fst snd]. rewrite ?app_nil_r. reflexivity.
  - unfold bind at 1.
    destruct (remaining_after env t (polling_frequency cfg) s1) as [[[d|e] s2] evs2];
      [|reflexivity].
    unfold bind, ret, saved_state, state_of, save_event, save_last_update_time.
    cbn [fst snd]. rewrite !wait_eq. cbn [fst snd]. rewrite ?app_nil_r. reflexivity.
Qed.

Lemma run_loop_succ n cfg w (s : State World) :
  run_loop env (S n) cfg w s =
  match run_once env cfg w s with
  | (Ok wm, s1, evs1) =>
      match run_loop env n cfg wm s1 with
      | (r, s2, evs2) => (r, s2, evs1 ++ evs2)
      end
  | (Raise e, s1, evs1) => (Raise e, s1, evs1)
  end.
Proof. reflexivity. Qed.

Lemma saved_app a b : saved (a ++ b) = saved a ++ saved b.
Proof. apply omap_app. Qed.

Lemma updates_run_quiet c us r c' evs :
  updates_run c us r c' evs -> saved evs = [] /\ clock_readings evs = [].
Proof.
  destruct 1 as [Hall | pre u post Hus Hall Hu | pre u post e Hus Hall Hu].
  - destruct (ok_events_projections us) as (_ & _ & E3 & _ & E5 & _). auto.
  - destruct (ok_events_projections pre) as (_ & _ & E3 & _ & E5 & _). auto.
  - destruct (ok_events_projections pre) as (_ & _ & E3 & _ & E5 & _).
    rewrite saved_app, clock_readings_app, E3, E5. auto.
Qed.

Lemma pass_run_quiet from n tok c r c' evs :
  pass_run from n tok c r c' evs -> saved evs = [] /\ clock_readings evs = [].
Proof.
  induction 1 as [tok c | n tok c e0 | n tok c resp e0 c' evs Hu
                  | n tok c resp c' evs Hnext Hu
                  | n tok c resp tok' c' evs r c'' evs' Hnext Hu Hrun [IH1 IH2]];
    auto; apply updates_run_quiet in Hu as [H1 H2].
  - auto.
  - auto.
  - change (saved (?e :: ?l)) with (saved l). change (clock_readings (?e :: ?l)) with (clock_readings l).
    rewrite saved_app, clock_readings_app, H1, H2, IH1, IH2. auto.
Qed.

Lemma sync_run_saved w r evs : sync_run w r evs -> saved evs = [].
Proof.
  destruct 1 as [e | e | tok t0 rl c body Hrun]; [reflexivity|reflexivity|].
  apply pass_run_quiet in Hrun as [H _]. exact H.
Qed.

Lemma last_saved_quiet w evs : saved evs = [] -> last_saved w evs = w.
Proof. unfold last_saved. intros ->. reflexivity. Qed.

Lemma last_saved_save w f w' evs :
  last_saved w (EvSave f w' :: evs) = last_saved w' evs.
Proof.
  unfold last_saved. change (saved (EvSave f w' :: evs)) with (w' :: saved evs).
  rewrite last_cons. destruct (last (saved evs)); reflexivity.
Qed.





Lemma remaining_after_cases t freq (s : State World) :
  (exists e, remaining_after env t freq s = (Raise e, s, []))
  \/ exists d now s', remaining_after env t freq s = (Ok d, s', [EvUtcNow now]).
Proof.
  unfold remaining_after. destruct (in_range _ _ _); [|left; eexists; reflexivity].
  right. unfold bind, datetime_utcnow, ret.
  destruct (utcnow env (world s)) as [now w1]. cbn [fst snd]. eauto.
Qed.

(** A turn of the loop saves the watermark it returns, once, and saves
    nothing when it is left by an exception. *)
Lemma run_once_saved cfg w (s : State World) :
  saved (events_of (run_once env cfg w s)) =
  match res_of (run_once env cfg w s) with
  | Ok wm => [wm]
  | Raise _ => []
  end.
Proof.
  rewrite run_once_eq. destruct (utcnow env (world s)) as [t w1].
  pose proof (sync_sound env cfg w (mk_state w1 (files s))) as Hs.
  apply sync_run_saved in Hs.
  destruct (sync env cfg w (mk_state w1 (files s))) as [[[[wm [e|]]|e] s1] evs];
    unfold events_of, res_of in *; cbn [fst snd] in *.
  - change (saved (?e :: ?l)) with (saved l). rewrite saved_app, Hs.
    unfold wait_events. destruct (_ <=? 0); reflexivity.
  - destruct (remaining_after_cases t (polling_frequency cfg) s1)
      as [(e & ->) | (d & now & s' & ->)]; cbn [fst snd].
    + change (saved (?e :: ?l)) with (saved l). rewrite saved_app, Hs. reflexivity.
    + change (saved (?e :: ?l)) with (saved l). rewrite saved_app, Hs.
      unfold wait_events. destruct (d <=? 0); reflexivity.
  - change (saved (?e :: ?l)) with (saved l). exact Hs.
Qed.



End WithEnv.
End RunFacts.

(** ** Files are left alone by a pass *)

Module FileFacts.
Import Text Datetime Effects Connector Trace Soundness.

Section WithEnv.
Context {World : Type} (env : Env World).

Lemma call_files {A} (f : World -> result A * World) (s : State World) :
  files (state_of (call f s)) = files s.
Proof. unfold call, state_of. destruct (f (world s)). reflexivity. Qed.

Lemma get_oauth_token_files site creds (s : State World) :
  files (state_of (get_oauth_token env site creds s)) = files s.
Proof. apply call_files. Qed.

Lemma get_ids_to_update_files tok site w cursor (s : State World) :
  files (state_of (get_ids_to_update env tok site w cursor s)) = files s.
Proof. apply call_files. Qed.

Lemma sync_video_by_id_files h tok cfg v (s : State World) :
  files (state_of (sync_video_by_id env h tok cfg v s)) = files s.
Proof.
  unfold state_of, sync_video_by_id, get_video_content, bind, call.
  destruct (get_content env _ _ _ (world s)) as [[vc|e] w1]; simpl; [|reflexivity].
  destruct (Deleted vc); simpl.
  - destruct (delete_from_target env h (Id vc) w1) as [r w2]; reflexivity.
  - destruct (convert_to_target env h vc w1) as [[tc|e] w2]; simpl; [|reflexivity].
    destruct (push_to_target env h tc cfg w2) as [r w3]; reflexivity.
Qed.

Lemma for_updates_files h tok cfg us : forall fr (s : State World),
  files (snd (state_of (for_updates env h tok cfg us (fr, s)))) = files s.
Proof.
  induction us as [|u us IH]; intros fr s; [reflexivity|].
  rewrite for_updates_cons. destruct (update_time_of u) as [t|]; [|reflexivity].
  pose proof (sync_video_by_id_files h tok cfg (VideoId u) s) as Hf.
  destruct (sync_video_by_id env h tok cfg (VideoId u) s) as [[[[]|e] s1] evs1];
    unfold state_of in *; cbn [fst snd] in *; [|exact Hf].
  specialize (IH (mk_frame (next_token fr) t)
                 (mk_state (sleep env (seconds 2) (world s1)) (files s1))).
  destruct (for_updates env h tok cfg us _) as [[r fs] evs].
  cbn [fst snd files] in *. congruence.
Qed.

Lemma for_range_files n h tok cfg w : forall fr (s : State World),
  files (snd (state_of (for_range env n h tok cfg w (fr, s)))) = files s.
Proof.
  induction n as [|n IH]; intros fr s; [reflexivity|].
  rewrite for_range_succ.
  pose proof (get_ids_to_update_files tok (panopto_site_address cfg) w
                (next_token fr) s) as Hf.
  destruct (get_ids_to_update env tok _ w (next_token fr) s) as [[[resp|e] s1] evs0];
    unfold state_of in *; cbn [fst snd] in *; [|exact Hf].
  pose proof (for_updates_files h tok cfg (Updates resp) fr s1) as Hu.
  destruct (for_updates env h tok cfg (Updates resp) (fr, s1)) as [[[[]|e] [fr2 s2]] evs];
    unfold state_of in *; cbn [fst snd] in *; [|congruence].
  cbv zeta. destruct (NextToken resp) as [tok'|]; [|cbn [fst snd]; congruence].
  specialize (IH (mk_frame (Some tok') (new_last_update_time fr2)) s2).
  destruct (for_range env n h tok cfg w _) as [[r fs] evs']. cbn [fst snd] in *. congruence.
Qed.

Lemma sync_files cfg w (s : State World) :
  files (state_of (sync env cfg w s)) = files s.
Proof.
  unfold sync, bind, traced, datetime_utcnow.
  pose proof (call_files (target_handler env cfg) s) as Hh.
  destruct (call (target_handler env cfg) s) as [[[h|e] s1] evs1];
    unfold state_of in *; cbn [fst snd] in *; [|exact Hh].
  pose proof (get_oauth_token_files (panopto_site_address cfg)
                (panopto_oauth_credentials cfg) s1) as Ht.
  destruct (get_oauth_token env _ _ s1) as [[[tok|e] s2] evs2];
    unfold state_of in *; cbn [fst snd] in *; [|congruence].
  destruct (utcnow env (world s2)) as [t0 w3].
  pose proof (for_range_files 1000 h tok cfg w (mk_frame None w) (mk_state w3 (files s2)))
    as Hr.
  destruct (for_range env 1000 h tok cfg w _) as [[r [fr s']] evs].
  unfold state_of in *. cbn [fst snd files] in *. congruence.
Qed.

End WithEnv.
End FileFacts.

(** ** The checkpoint file *)

Module Checkpoint.
Import Text Datetime Effects Connector Trace Scenario TextFacts DatetimeFacts LineFacts.

Section WithEnv.
Context {World : Type} (env : Env World).

Lemma strip_isoformat_line w : strip (isoformat w +:+ String LF "") = isoformat w.
Proof. apply strip_line, isoformat_not_space. Qed.

Lemma isoformat_no_newline w : no_newline (isoformat w) = true.
Proof.
  unfold no_newline. apply (all_chars_impl not_space); [|apply isoformat_not_space].
  apply not_space_not_newline.
Qed.

Lemma get_last_update_time_pure (implementation_name : string) (s : State World) :
  state_of (get_last_update_time env implementation_name s) = s
  /\ events_of (get_last_update_time env implementation_name s) = [].
Proof.
  unfold get_last_update_time, state_of, events_of.
  destruct (files s !! tracking_file env implementation_name) as [content|];
    [|split; reflexivity].
  destruct (last (readlines content)) as [line|]; [|split; reflexivity].
  destruct (fromisoformat (strip line)); split; reflexivity.
Qed.

(** C8 (amended).  Loading the checkpoint leaves the state as it is and
    returns the default, 1 January 2008, when the file is missing or
    empty.  When the file has content, its last line, stripped of
    surrounding white space, is what is parsed: loading returns the
    watermark that line denotes, an aware datetime when the line carries
    a UTC offset, and raises [ValueError] when [fromisoformat] rejects the
    line. *)
Theorem load_last_line (implementation_name : string) (s : State World) :
  (files s !! tracking_file env implementation_name = None
   \/ files s !! tracking_file env implementation_name = Some ""
   -> res_of (get_last_update_time env implementation_name s)
      = Ok default_last_update_time)
  /\ (forall content,
        files s !! tracking_file env implementation_name = Some content ->
        content <> "" ->
        exists line,
          last (readlines content) = Some line
          /\ (forall t, fromisoformat (strip line) = Some t ->
                res_of (get_last_update_time env implementation_name s) = Ok t)
          /\ (fromisoformat (strip line) = None ->
                exists msg,
                  res_of (get_last_update_time env implementation_name s)
                  = Raise (ValueError msg)))
  /\ state_of (get_last_update_time env implementation_name s) = s
  /\ events_of (get_last_update_time env implementation_name s) = [].
Proof.
  unfold get_last_update_time, res_of, state_of, events_of.
  split; [|split].
  - intros [-> | ->]; reflexivity.
  - intros content -> Hne.
    destruct (last (readlines content)) as [line|] eqn:Hlast.
    + exists line. split; [reflexivity|]. split.
      * intros t ->. reflexivity.
      * intros ->. eexists. reflexivity.
    + apply last_None in Hlast. exfalso. exact (readlines_not_nil content Hne Hlast).
  - apply get_last_update_time_pure.
Qed.


End WithEnv.

Lemma load_last_line_witness :
  res_of (get_last_update_time env_no_change "example"
            (fresh {[ checkpoint_path := two_lines ]}))
  = Ok (mk_datetime 2020 1 2 3 4 5 6).
Proof.
  destruct (load_last_line env_no_change "example"
              (fresh {[ checkpoint_path := two_lines ]})) as (_ & Hline & _).
  destruct (Hline two_lines) as (line & Hlast & Hsome & _).
  - vm_compute. reflexivity.
  - discriminate.
  - apply Hsome. vm_compute in Hlast. injection Hlast as <-. vm_compute. reflexivity.
Defined.

(** C8, counterexample.  A checkpoint file whose last line is blank makes
    loading raise. *)
Lemma load_blank_line_raises :
  res_of (get_last_update_time env_no_change "example"
            (fresh {[ checkpoint_path :=
                        "2020-01-02T03:04:05" +:+ String LF (String LF "") ]}))
  = Raise (ValueError "Invalid isoformat string: ").
Proof. vm_compute. reflexivity. Qed.

(** A last line with a UTC offset is read as an aware datetime. *)
Lemma load_offset_line :
  res_of (get_last_update_time env_no_change "example"
            (fresh {[ checkpoint_path :=
                        "2020-01-02T03:04:05+00:00" +:+ String LF "" ]}))
  = Ok (mk_datetime_tz 2020 1 2 3 4 5 0 (Some 0)).
Proof. vm_compute. reflexivity. Qed.



End Checkpoint.

(** ** One pass *)

Module Pass.
Import Text Datetime Effects Connector Trace Scenario.
Import Soundness PassFacts SyncFacts ScenarioFacts TimeFacts RunFacts FileFacts.


Section WithEnv.
Context {World : Type} (env : Env World).


(** C4 (amended).  If the synchronisation of an item raises after [S k]
    items of the pass have been applied, nothing more is done in the pass:
    the raising call is the last event, the items synchronised are the
    first [S k] enumerated ones and then the one that raised, which is the
    next enumerated one.  [sync] returns that failure, and the watermark
    it returns is the time recorded for the last item applied: the change
    time its [UpdateTime] reports, cut down to the whole second. *)
Theorem sync_partial_progress (cfg : ConnectorConfig) (w : datetime) (s : State World)
    (v : string) (e : exn) (k : nat) :
  In (EvSyncVideo v (Some e)) (events_of (sync env cfg w s)) ->
  length (applied (events_of (sync env cfg w s))) = S k ->
  last (events_of (sync env cfg w s)) = Some (EvSyncVideo v (Some e))
  /\ sync_results (events_of (sync env cfg w s))
     = map sync_ok (take (S k) (enumerated (events_of (sync env cfg w s))))
       ++ [(v, Some e)]
  /\ (exists u, enumerated (events_of (sync env cfg w s)) !! S k = Some u
                /\ VideoId u = v)
  /\ exists uK tK reported,
       enumerated (events_of (sync env cfg w s)) !! k = Some uK
       /\ update_time_of uK = Some tK
       /\ reported_time (UpdateTime uK) = Some reported
       /\ tK = with_microsecond reported 0
       /\ res_of (sync env cfg w s) = Ok (tK, Some e).
Proof.
  intros Hin Hlen.
  destruct (sync_run_partial w _ _ v e k (sync_sound env cfg w s) Hin Hlen)
    as (Hlast & Hres & Hnext & uK & tK & HuK & Ht & Hr).
  split; [exact Hlast|]. split; [exact Hres|]. split; [exact Hnext|].
  destruct (update_time_truncates uK tK Ht) as (_ & d & Hd & Htrunc & _).
  exists uK, tK, d. auto 10.
Qed.


(** C10 (amended).  When the synchronisation of an item raises after
    [S k] items of the pass have been applied, the watermark [sync]
    returns is the time recorded for the last item applied: the time its
    [UpdateTime] reports with the fraction of a second cut off, not
    rounded.  It has no microseconds and is at most the reported time,
    by less than a second. *)
Theorem sync_watermark_truncated (cfg : ConnectorConfig) (w : datetime) (s : State World)
    (v : string) (e : exn) (k : nat) :
  In (EvSyncVideo v (Some e)) (events_of (sync env cfg w s)) ->
  length (applied (events_of (sync env cfg w s))) = S k ->
  exists uK tK reported,
    enumerated (events_of (sync env cfg w s)) !! k = Some uK
    /\ res_of (sync env cfg w s) = Ok (tK, Some e)
    /\ reported_time (UpdateTime uK) = Some reported
    /\ tK = with_microsecond reported 0
    /\ microsecond tK = 0
    /\ to_micro tK <= to_micro reported < to_micro tK + seconds 1.
Proof.
  intros Hin Hlen.
  destruct (sync_run_partial w _ _ v e k (sync_sound env cfg w s) Hin Hlen)
    as (_ & _ & _ & uK & tK & HuK & Ht & Hres).
  destruct (update_time_truncates uK tK Ht) as (Hus & d & Hd & Htrunc & Hbound).
  exists uK, tK, d. auto 10.
Qed.


End WithEnv.
End Pass.

Module PassExamples.
Import Text Datetime Effects Connector Trace Scenario Pass.



(** C2, the code at the failing input.  Every page holds a record changed
    at [T1] and a cursor to a further page.  The pass makes 1000
    enumeration calls, applies the 1000 records, logs the warning and
    returns no failure; the watermark it returns is the start time of the
    pass, noon, not the time [T1] reached by the records applied. *)
Lemma sync_ceiling_returns_start_time :
  get_ids_results (events_of (sync env_endless config T0 (fresh ∅)))
    = repeat (Ok (mk_updates_response [update_a] (Some "more"))) 1000
  /\ applied (events_of (sync env_endless config T0 (fresh ∅))) = repeat "a" 1000
  /\ warnings (events_of (sync env_endless config T0 (fresh ∅)))
     = ["Did not complete a sync in 1000 passes"]
  /\ candidate T0 (enumerated (events_of (sync env_endless config T0 (fresh ∅)))) = T1
  /\ res_of (sync env_endless config T0 (fresh ∅)) = Ok (noon, None)
  /\ to_micro T1 < to_micro noon.
Proof. vm_compute. repeat split; reflexivity. Qed.

Lemma sync_partial_progress_witness :
  In (EvSyncVideo "b" (Some server_error))
     (events_of (sync env_second_fails config T0 (fresh ∅)))
  /\ length (applied (events_of (sync env_second_fails config T0 (fresh ∅)))) = 1%nat
  /\ res_of (sync env_second_fails config T0 (fresh ∅)) = Ok (T1, Some server_error).
Proof.
  assert (H1 : In (EvSyncVideo "b" (Some server_error))
                  (events_of (sync env_second_fails config T0 (fresh ∅))))
    by (vm_compute; tauto).
  assert (H2 : length (applied (events_of (sync env_second_fails config T0 (fresh ∅))))
               = 1%nat) by (vm_compute; reflexivity).
  split; [exact H1|]. split; [exact H2|].
  destruct (sync_partial_progress env_second_fails config T0 (fresh ∅) "b" server_error 0
              H1 H2) as (_ & _ & _ & uK & tK & reported & HuK & HtK & _ & _ & Hres).
  vm_compute in HuK. injection HuK as <-.
  vm_compute in HtK. injection HtK as <-.
  exact Hres.
Defined.

(** C4, counterexample.  Record [a] reports the change time
    10:00:00.123456 and is applied; the content of record [b] cannot be
    fetched.  The watermark returned is 10:00:00, not the change time of
    the last record applied. *)
Lemma sync_partial_progress_drops_fraction :
  applied (events_of (sync env_second_fails config T0 (fresh ∅))) = ["a"]
  /\ last (events_of (sync env_second_fails config T0 (fresh ∅)))
     = Some (EvSyncVideo "b" (Some server_error))
  /\ reported_time (UpdateTime update_a) = Some (mk_datetime 2020 3 1 10 0 0 123456)
  /\ res_of (sync env_second_fails config T0 (fresh ∅))
     = Ok (mk_datetime 2020 3 1 10 0 0 0, Some server_error)
  /\ mk_datetime 2020 3 1 10 0 0 0 <> mk_datetime 2020 3 1 10 0 0 123456.
Proof. vm_compute. repeat split; discriminate. Qed.


Lemma sync_watermark_truncated_witness :
  In (EvSyncVideo "b" (Some server_error))
     (events_of (sync env_second_fails config T0 (fresh ∅)))
  /\ length (applied (events_of (sync env_second_fails config T0 (fresh ∅)))) = 1%nat
  /\ exists uK tK reported,
       enumerated (events_of (sync env_second_fails config T0 (fresh ∅))) !! 0%nat = Some uK
       /\ res_of (sync env_second_fails config T0 (fresh ∅)) = Ok (tK, Some server_error)
       /\ reported_time (UpdateTime uK) = Some reported
       /\ tK = with_microsecond reported 0
       /\ microsecond tK = 0
       /\ to_micro tK <= to_micro reported < to_micro tK + seconds 1.
Proof.
  assert (H1 : In (EvSyncVideo "b" (Some server_error))
                  (events_of (sync env_second_fails config T0 (fresh ∅))))
    by (vm_compute; tauto).
  assert (H2 : length (applied (events_of (sync env_second_fails config T0 (fresh ∅))))
               = 1%nat) by (vm_compute; reflexivity).
  split; [exact H1|]. split; [exact H2|].
  exact (sync_watermark_truncated env_second_fails config T0 (fresh ∅) "b" server_error 0
           H1 H2).
Defined.

(** C10, counterexample.  The pass is given the watermark 12:00:00.5 and
    the synchronisation of its first item raises: the watermark returned
    after this item failure is the one given, which has half a second. *)
Lemma sync_item_failure_keeps_fraction :
  In (EvSyncVideo "a" (Some server_error))
     (events_of (sync env_content_down config half_past (fresh ∅)))
  /\ res_of (sync env_content_down config half_past (fresh ∅))
     = Ok (half_past, Some server_error)
  /\ microsecond half_past <> 0.
Proof. vm_compute. repeat split; [tauto|discriminate]. Qed.


(** C6, the code at the failing input.  The token endpoint answers 401:
    the error leaves [sync] instead of being returned by it, and leaves
    [run] with it; nothing is logged, no watermark is saved, the checkpoint
    file is not written and no retry is waited for. *)
Lemma token_failure_leaves_run :
  res_of (sync env_token_rejected config T0 (fresh ∅)) = Raise unauthorized
  /\ res_of (run env_token_rejected 3 config (fresh ∅)) = Raise unauthorized
  /\ events_of (run env_token_rejected 3 config (fresh ∅))
     = [EvUtcNow noon; EvTargetHandler None; EvGetOauthToken (Raise unauthorized)]
  /\ files (state_of (run env_token_rejected 3 config (fresh ∅))) !! checkpoint_path = None.
Proof. vm_compute. repeat split; reflexivity. Qed.

End PassExamples.

(** ** The sequence of saved watermarks *)

Module Loop.
Import Text Datetime Effects Connector Trace Scenario.
Import Soundness PassFacts SyncFacts RunFacts Checkpoint.


Section WithEnv.
Context {World : Type} (env : Env World).



End WithEnv.



End Loop.

(** * Further properties of the connector *)

(** ** Facts about the observations *)

Module ObservedFacts.
Import Text Datetime Effects Connector Trace Observed.
Import Soundness PassFacts SyncFacts RunFacts.

Lemma enum_calls_app a b : enum_calls (a ++ b) = enum_calls a ++ enum_calls b.
Proof. apply omap_app. Qed.

Lemma warnings_app a b : warnings (a ++ b) = warnings a ++ warnings b.
Proof. apply omap_app. Qed.

Lemma item_failures_app a b : item_failures (a ++ b) = item_failures a ++ item_failures b.
Proof. apply omap_app. Qed.

Lemma resumes_app w a : forall b,
  resumes w (a ++ b) <-> resumes w a /\ resumes (last_saved w a) b.
Proof.
  revert w. induction a as [|ev a IH]; intros w b; [simpl; tauto|].
  destruct ev as [r|r|t0|f t0 r|v r|d|m|m e|f t0]; cbn [app resumes];
    try (rewrite IH; reflexivity).
  - rewrite IH. change (last_saved w (EvGetIds f t0 r :: a)) with (last_saved w a). tauto.
  - rewrite IH, last_saved_save. reflexivity.
Qed.

Lemma ok_events_item_events us : Forall item_event (flat_map ok_events us).
Proof.
  induction us as [|u us IH]; [constructor|].
  cbn [flat_map ok_events app]. repeat constructor. exact IH.
Qed.

Lemma updates_run_item_events c us r c' evs :
  updates_run c us r c' evs -> Forall item_event evs.
Proof.
  destruct 1 as [Hall | pre u post Hus Hall Hu | pre u post e Hus Hall Hu].
  - apply ok_events_item_events.
  - apply ok_events_item_events.
  - apply Forall_app. split; [apply ok_events_item_events|].
    repeat constructor.
Qed.

Lemma item_events_silent {B} (f : event -> option B) evs :
  (forall v r, f (EvSyncVideo v r) = None) -> (forall d, f (EvSleep d) = None) ->
  Forall item_event evs -> omap f evs = [].
Proof.
  intros Hv Hd. induction 1 as [|ev evs Hev _ IH]; [reflexivity|].
  destruct ev; try contradiction; cbn [omap list_omap]; rewrite ?Hv, ?Hd; exact IH.
Qed.

Lemma item_events_resumes w evs : Forall item_event evs -> resumes w evs.
Proof.
  induction 1 as [|ev evs Hev _ IH]; [exact I|].
  destruct ev; try contradiction; exact IH.
Qed.

Lemma item_events_saved evs : Forall item_event evs -> saved evs = [].
Proof. apply item_events_silent; reflexivity. Qed.

Lemma item_events_enum_calls evs : Forall item_event evs -> enum_calls evs = [].
Proof. apply item_events_silent; reflexivity. Qed.

Lemma item_events_get_ids evs : Forall item_event evs -> get_ids_results evs = [].
Proof. apply item_events_silent; reflexivity. Qed.

Lemma item_events_warnings evs : Forall item_event evs -> warnings evs = [].
Proof. apply item_events_silent; reflexivity. Qed.

(** *** Cursors *)

Lemma pass_run_chained from n tok c r c' evs :
  pass_run from n tok c r c' evs -> chained tok (enum_calls evs).
Proof.
  induction 1 as [tok c | n tok c e0 | n tok c resp e0 c' evs Hu
                  | n tok c resp c' evs Hnext Hu
                  | n tok c resp tok' c' evs r c'' evs' Hnext Hu Hrun IH].
  - exact I.
  - split; reflexivity.
  - apply updates_run_item_events, item_events_enum_calls in Hu.
    change (enum_calls (EvGetIds from tok (Ok resp) :: evs))
      with ((tok, Ok resp) :: enum_calls evs).
    rewrite Hu. split; [reflexivity|]. destruct (NextToken resp); [exact I|reflexivity].
  - apply updates_run_item_events, item_events_enum_calls in Hu.
    change (enum_calls (EvGetIds from tok (Ok resp) :: evs))
      with ((tok, Ok resp) :: enum_calls evs).
    rewrite Hu. split; [reflexivity|]. rewrite Hnext. reflexivity.
  - apply updates_run_item_events, item_events_enum_calls in Hu.
    change (enum_calls (EvGetIds from tok (Ok resp) :: evs ++ evs'))
      with ((tok, Ok resp) :: enum_calls (evs ++ evs')).
    rewrite enum_calls_app, Hu. split; [reflexivity|]. rewrite Hnext. exact IH.
Qed.

(** *** The page ceiling *)

Lemma pass_run_bound from n tok c r c' evs :
  pass_run from n tok c r c' evs ->
  (length (get_ids_results evs) <= n)%nat
  /\ (warnings evs = []
      \/ (warnings evs = ["Did not complete a sync in 1000 passes"]
          /\ length (get_ids_results evs) = n /\ r = Ok tt
          /\ forallb has_cursor (get_ids_results evs) = true)).
Proof.
  induction 1 as [tok c | n tok c e0 | n tok c resp e0 c' evs Hu
                  | n tok c resp c' evs Hnext Hu
                  | n tok c resp tok' c' evs r c'' evs' Hnext Hu Hrun [IHlen IHwarn]].
  - split; [reflexivity|]. right. repeat split; reflexivity.
  - split; [simpl; lia|]. left. reflexivity.
  - apply updates_run_item_events in Hu.
    change (get_ids_results (EvGetIds from tok (Ok resp) :: evs))
      with (Ok resp :: get_ids_results evs).
    change (warnings (EvGetIds from tok (Ok resp) :: evs)) with (warnings evs).
    rewrite (item_events_get_ids _ Hu), (item_events_warnings _ Hu).
    split; [simpl; lia|]. left. reflexivity.
  - apply updates_run_item_events in Hu.
    change (get_ids_results (EvGetIds from tok (Ok resp) :: evs))
      with (Ok resp :: get_ids_results evs).
    change (warnings (EvGetIds from tok (Ok resp) :: evs)) with (warnings evs).
    rewrite (item_events_get_ids _ Hu), (item_events_warnings _ Hu).
    split; [simpl; lia|]. left. reflexivity.
  - apply updates_run_item_events in Hu.
    change (get_ids_results (EvGetIds from tok (Ok resp) :: evs ++ evs'))
      with (Ok resp :: get_ids_results (evs ++ evs')).
    change (warnings (EvGetIds from tok (Ok resp) :: evs ++ evs'))
      with (warnings (evs ++ evs')).
    rewrite get_ids_results_app, warnings_app.
    rewrite (item_events_get_ids _ Hu), (item_events_warnings _ Hu). cbn [app].
    split; [simpl; lia|].
    destruct IHwarn as [Hw | (Hw & Hlen & Hr & Hall)]; [left; exact Hw|].
    right. split; [exact Hw|]. split; [simpl; lia|]. split; [exact Hr|].
    cbn [forallb has_cursor]. rewrite Hnext, Hall. reflexivity.
Qed.

(** *** Pauses *)

Lemma sleeps_ok_events us :
  sleeps (flat_map ok_events us) = repeat (seconds 2) (length us).
Proof.
  induction us as [|u us IH]; [reflexivity|].
  cbn [flat_map ok_events app length repeat].
  change (sleeps (EvSyncVideo (VideoId u) None :: EvSleep (seconds 2) :: ?l))
    with (seconds 2 :: sleeps l).
  rewrite IH. reflexivity.
Qed.

Lemma updates_run_sleeps c us r c' evs :
  updates_run c us r c' evs ->
  sleeps evs = repeat (seconds 2) (length (applied evs)).
Proof.
  destruct 1 as [Hall | pre u post Hus Hall Hu | pre u post e Hus Hall Hu].
  - destruct (ok_events_projections us) as (_ & _ & _ & _ & _ & _ & E7 & _).
    rewrite sleeps_ok_events, E7, length_map. reflexivity.
  - destruct (ok_events_projections pre) as (_ & _ & _ & _ & _ & _ & E7 & _).
    rewrite sleeps_ok_events, E7, length_map. reflexivity.
  - destruct (ok_events_projections pre) as (_ & _ & _ & _ & _ & _ & E7 & _).
    rewrite sleeps_app, applied_app, sleeps_ok_events, E7, length_app, length_map.
    cbn. rewrite app_nil_r, Nat.add_0_r. reflexivity.
Qed.

Lemma pass_run_sleeps from n tok c r c' evs :
  pass_run from n tok c r c' evs ->
  sleeps evs = repeat (seconds 2) (length (applied evs)).
Proof.
  induction 1 as [tok c | n tok c e0 | n tok c resp e0 c' evs Hu
                  | n tok c resp c' evs Hnext Hu
                  | n tok c resp tok' c' evs r c'' evs' Hnext Hu Hrun IH];
    try reflexivity.
  - apply updates_run_sleeps in Hu. exact Hu.
  - apply updates_run_sleeps in Hu. exact Hu.
  - apply updates_run_sleeps in Hu.
    change (sleeps (EvGetIds from tok (Ok resp) :: evs ++ evs')) with (sleeps (evs ++ evs')).
    change (applied (EvGetIds from tok (Ok resp) :: evs ++ evs'))
      with (applied (evs ++ evs')).
    rewrite sleeps_app, applied_app, Hu, IH, length_app, repeat_app. reflexivity.
Qed.

(** *** Passes that return no failure *)

Lemma item_failures_ok_events us : item_failures (flat_map ok_events us) = [].
Proof. induction us as [|u us IH]; [reflexivity|exact IH]. Qed.

Lemma pass_run_complete from n tok c r c' evs :
  pass_run from n tok c r c' evs -> r = Ok tt ->
  item_failures evs = []
  /\ forallb is_ok (get_ids_results evs) = true
  /\ applied evs = map VideoId (enumerated evs).
Proof.
  induction 1 as [tok c | n tok c e0 | n tok c resp e0 c' evs Hu
                  | n tok c resp c' evs Hnext Hu
                  | n tok c resp tok' c' evs r c'' evs' Hnext Hu Hrun IH];
    intros Hr; try discriminate Hr.
  - repeat split; reflexivity.
  - apply updates_run_ok in Hu as (_ & _ & ->).
    destruct (ok_events_projections (Updates resp)) as (E1 & E2 & _ & _ & _ & _ & E7 & _).
    rewrite enumerated_get_ids, applied_get_ids, E2, E7, app_nil_r.
    change (get_ids_results (EvGetIds from tok (Ok resp) :: ?l))
      with (Ok resp :: get_ids_results l).
    change (item_failures (EvGetIds from tok (Ok resp) :: ?l)) with (item_failures l).
    rewrite E1, item_failures_ok_events. repeat split; reflexivity.
  - apply updates_run_ok in Hu as (_ & _ & ->).
    destruct (IH Hr) as (IH1 & IH2 & IH3).
    destruct (ok_events_projections (Updates resp)) as (E1 & E2 & _ & _ & _ & _ & E7 & _).
    rewrite enumerated_get_ids, applied_get_ids, enumerated_app, applied_app, E2, E7.
    change (get_ids_results (EvGetIds from tok (Ok resp) :: ?l))
      with (Ok resp :: get_ids_results l).
    change (item_failures (EvGetIds from tok (Ok resp) :: ?l)) with (item_failures l).
    rewrite get_ids_results_app, item_failures_app, E1, item_failures_ok_events, IH1, IH3.
    cbn [app forallb is_ok]. rewrite IH2, map_app. repeat split; reflexivity.
Qed.

(** *** Records whose time cannot be read *)

Lemma pass_run_bad_time from n tok c r c' evs e :
  pass_run from n tok c r c' evs -> r = Raise e ->
  item_failures evs = [] ->
  forallb is_ok (get_ids_results evs) = true ->
  exists done u post,
    enumerated evs = done ++ u :: post
    /\ update_time_of u = None /\ e = bad_time u
    /\ Forall parses done /\ c' = candidate c done
    /\ sync_results evs = map sync_ok done.
Proof.
  induction 1 as [tok c | n tok c e0 | n tok c resp e0 c' evs Hu
                  | n tok c resp c' evs Hnext Hu
                  | n tok c resp tok' c' evs r c'' evs' Hnext Hu Hrun IH];
    intros Hr Hfail Hok; try discriminate Hr.
  - discriminate Hok.
  - injection Hr as ->.
    apply updates_run_raise in Hu as (pre & u & post & Hus & Hall & Hc & Hevs).
    destruct (ok_events_projections pre) as (_ & E2 & _ & _ & _ & E6 & _).
    destruct Hevs as [(-> & Hbad & ->) | (-> & _)].
    + exists pre, u, post.
      rewrite enumerated_get_ids, sync_results_get_ids, E2, E6, app_nil_r. auto 10.
    + exfalso.
      change (item_failures (EvGetIds from tok (Ok resp) :: ?l)) with (item_failures l)
        in Hfail.
      rewrite item_failures_app, item_failures_ok_events in Hfail. discriminate Hfail.
  - apply updates_run_ok in Hu as (Hall & Hc & ->).
    change (item_failures (EvGetIds from tok (Ok resp) :: ?l)) with (item_failures l)
      in Hfail.
    change (get_ids_results (EvGetIds from tok (Ok resp) :: ?l))
      with (Ok resp :: get_ids_results l) in Hok.
    destruct (ok_events_projections (Updates resp)) as (E1 & E2 & _ & _ & _ & E6 & _).
    rewrite item_failures_app, item_failures_ok_events in Hfail.
    rewrite get_ids_results_app, E1 in Hok. cbn [app forallb is_ok andb] in Hok, Hfail.
    destruct (IH Hr Hfail Hok) as (done & u & post & He & Hbad & Hb & Hd & Hc' & Hs).
    exists (Updates resp ++ done), u, post.
    rewrite enumerated_get_ids, sync_results_get_ids, enumerated_app, sync_results_app.
    rewrite E2, E6, He, Hs, map_app, candidate_app, <- Hc, <- app_assoc. cbn [app].
    repeat split; auto. apply Forall_app; auto.
Qed.

(** *** The watermark asked for *)

Lemma pass_run_resumes from n tok c r c' evs :
  pass_run from n tok c r c' evs -> resumes from evs.
Proof.
  induction 1 as [tok c | n tok c e0 | n tok c resp e0 c' evs Hu
                  | n tok c resp c' evs Hnext Hu
                  | n tok c resp tok' c' evs r c'' evs' Hnext Hu Hrun IH].
  - exact I.
  - split; [reflexivity|exact I].
  - split; [reflexivity|]. apply item_events_resumes, (updates_run_item_events _ _ _ _ _ Hu).
  - split; [reflexivity|]. apply item_events_resumes, (updates_run_item_events _ _ _ _ _ Hu).
  - split; [reflexivity|]. apply resumes_app.
    pose proof (updates_run_item_events _ _ _ _ _ Hu) as Hitem.
    split; [apply item_events_resumes, Hitem|].
    rewrite last_saved_quiet by (apply item_events_saved, Hitem). exact IH.
Qed.

End ObservedFacts.

(** ** More on one pass *)

Module PassMore.
Import Text Datetime Effects Connector Trace Observed.
Import Soundness PassFacts SyncFacts RunFacts FileFacts ObservedFacts.

Section WithEnv.
Context {World : Type} (env : Env World).

(** X1.  In a pass the first enumeration call is made without cursor,
    every further call sends the cursor of the answer before it, and no
    call follows an answer without cursor or a call that raised. *)
Theorem sync_cursors_chained (cfg : ConnectorConfig) (w : datetime) (s : State World) :
  chained None (enum_calls (events_of (sync env cfg w s))).
Proof.
  destruct (sync_run_pass w _ _ (sync_sound env cfg w s))
    as [(e0 & _ & [-> | ->]) | (tok & t0 & rl & c & body & -> & Hrun & _)];
    [exact I | exact I |].
  exact (pass_run_chained _ _ _ _ _ _ _ Hrun).
Qed.

(** X2.  A pass makes at most 1000 enumeration calls.  It logs the
    warning that the sync did not complete only after 1000 calls that
    were all answered with a cursor, and then returns no failure. *)
Theorem sync_page_ceiling (cfg : ConnectorConfig) (w : datetime) (s : State World) :
  (length (get_ids_results (events_of (sync env cfg w s))) <= 1000)%nat
  /\ (warnings (events_of (sync env cfg w s)) = []
      \/ (warnings (events_of (sync env cfg w s))
            = ["Did not complete a sync in 1000 passes"]
          /\ length (get_ids_results (events_of (sync env cfg w s))) = 1000%nat
          /\ forallb has_cursor (get_ids_results (events_of (sync env cfg w s))) = true
          /\ exists start_time, res_of (sync env cfg w s) = Ok (start_time, None))).
Proof.
  destruct (sync_run_pass w _ _ (sync_sound env cfg w s))
    as [(e0 & _ & [-> | ->]) | (tok & t0 & rl & c & body & -> & Hrun & Hres)];
    [split; [simpl; lia | left; reflexivity] | split; [simpl; lia | left; reflexivity] |].
  change (get_ids_results (_ :: _ :: _ :: body)) with (get_ids_results body).
  change (warnings (_ :: _ :: _ :: body)) with (warnings body).
  destruct (pass_run_bound _ _ _ _ _ _ _ Hrun) as [Hlen [Hw | (Hw & Hn & -> & Hall)]].
  - split; [exact Hlen | left; exact Hw].
  - split; [exact Hlen|]. right. repeat split; try assumption. exists t0. exact Hres.
Qed.

(** X3.  The two-second pause is taken once after every item that was
    applied, and not after an item whose synchronisation raised: a pass
    pauses as many times as it has applied items. *)
Theorem sync_pauses (cfg : ConnectorConfig) (w : datetime) (s : State World) :
  sleeps (events_of (sync env cfg w s))
  = repeat (seconds 2) (length (applied (events_of (sync env cfg w s)))).
Proof.
  destruct (sync_run_pass w _ _ (sync_sound env cfg w s))
    as [(e0 & _ & [-> | ->]) | (tok & t0 & rl & c & body & -> & Hrun & _)];
    [reflexivity | reflexivity |].
  exact (pass_run_sleeps _ _ _ _ _ _ _ Hrun).
Qed.

(** X4.  A pass that returns no failure has applied every record it was
    given, in the order given: no enumeration call and no item raised,
    and the watermark returned is the clock reading of the pass. *)
Theorem sync_complete_pass (cfg : ConnectorConfig) (w : datetime) (s : State World)
    (wm : datetime) :
  res_of (sync env cfg w s) = Ok (wm, None) ->
  applied (events_of (sync env cfg w s))
    = map VideoId (enumerated (events_of (sync env cfg w s)))
  /\ item_failures (events_of (sync env cfg w s)) = []
  /\ forallb is_ok (get_ids_results (events_of (sync env cfg w s))) = true
  /\ clock_readings (events_of (sync env cfg w s)) = [wm].
Proof.
  intros Hres.
  destruct (sync_run_pass w _ _ (sync_sound env cfg w s))
    as [(e0 & Hr & _) | (tok & t0 & rl & c & body & -> & Hrun & Hr)];
    rewrite Hr in Hres; [discriminate Hres|].
  destruct rl as [[]|e]; [|discriminate Hres]. injection Hres as <-.
  destruct (pass_run_complete _ _ _ _ _ _ _ Hrun eq_refl) as (H1 & H2 & H3).
  destruct (pass_run_quiet _ _ _ _ _ _ _ Hrun) as [_ Hclock].
  change (clock_readings (_ :: _ :: _ :: body)) with (t0 :: clock_readings body).
  rewrite Hclock. auto.
Qed.

(** X5.  When the [UpdateTime] of a record cannot be read, the pass ends
    with a [ValueError] before that record is synchronised: if [sync]
    returns a failure although every enumeration call and every item
    synchronisation of the pass succeeded, the failure is the
    [ValueError] of the first record not applied, and the watermark is
    the one left by the records before it. *)
Theorem sync_unreadable_time (cfg : ConnectorConfig) (w : datetime) (s : State World)
    (wm : datetime) (e : exn) :
  res_of (sync env cfg w s) = Ok (wm, Some e) ->
  item_failures (events_of (sync env cfg w s)) = [] ->
  forallb is_ok (get_ids_results (events_of (sync env cfg w s))) = true ->
  exists done u post,
    enumerated (events_of (sync env cfg w s)) = done ++ u :: post
    /\ update_time_of u = None
    /\ e = ValueError ("time data does not match format: " +:+ UpdateTime u)
    /\ wm = candidate w done
    /\ sync_results (events_of (sync env cfg w s)) = map sync_ok done.
Proof.
  intros Hres Hfail Hok.
  destruct (sync_run_pass w _ _ (sync_sound env cfg w s))
    as [(e0 & Hr & _) | (tok & t0 & rl & c & body & Hevs & Hrun & Hr)];
    rewrite Hr in Hres; [discriminate Hres|].
  rewrite Hevs in *.
  destruct rl as [[]|e']; [discriminate Hres|]. injection Hres as <- <-.
  destruct (pass_run_bad_time _ _ _ _ _ _ _ e' Hrun eq_refl Hfail Hok)
    as (done & u & post & He & Hbad & Hb & _ & Hc & Hs).
  exists done, u, post. auto 10.
Qed.

(** X6.  When an enumeration call raises, on whatever page, nothing more
    is done in the pass: every record of the pages before has been
    applied, and [sync] returns that failure with the watermark those
    records leave. *)
Theorem sync_enumeration_failure (cfg : ConnectorConfig) (w : datetime) (s : State World)
    (from_date : datetime) (cursor : option string) (e : exn) :
  In (EvGetIds from_date cursor (Raise e)) (events_of (sync env cfg w s)) ->
  last (events_of (sync env cfg w s)) = Some (EvGetIds from_date cursor (Raise e))
  /\ applied (events_of (sync env cfg w s))
     = map VideoId (enumerated (events_of (sync env cfg w s)))
  /\ res_of (sync env cfg w s)
     = Ok (candidate w (enumerated (events_of (sync env cfg w s))), Some e).
Proof.
  intros Hin.
  destruct (sync_run_pass w _ _ (sync_sound env cfg w s))
    as [(e0 & _ & [Hevs | Hevs]) | (tok & t0 & rl & c & body & Hevs & Hrun & Hr)];
    rewrite Hevs in *.
  - destruct Hin as [H|[]]. discriminate H.
  - destruct Hin as [H|[H|[]]]; discriminate H.
  - destruct Hin as [H|[H|[H|Hin]]]; try discriminate H.
    destruct (pass_run_enum_failure _ _ _ _ _ _ _ Hrun _ _ _ Hin)
      as (-> & Hlast & _ & -> & Ha).
    split; [do 3 apply last_cons_some; exact Hlast|]. split; [exact Ha|exact Hr].
Qed.

(** X7.  A pass writes no file and saves no watermark: the checkpoint is
    written by the polling loop only. *)
Theorem sync_writes_nothing (cfg : ConnectorConfig) (w : datetime) (s : State World) :
  files (state_of (sync env cfg w s)) = files s
  /\ saved (events_of (sync env cfg w s)) = [].
Proof.
  split; [apply sync_files|]. exact (sync_run_saved w _ _ (sync_sound env cfg w s)).
Qed.

(** X8.  [sync] is left by an exception only when the target handler
    cannot be built or the token cannot be obtained, and then it has made
    no other call.  Once the token is obtained [sync] returns, whatever
    raises afterwards. *)
Theorem sync_raises_before_the_loop (cfg : ConnectorConfig) (w : datetime)
    (s : State World) :
  (forall e, res_of (sync env cfg w s) = Raise e ->
     events_of (sync env cfg w s) = [EvTargetHandler (Some e)]
     \/ events_of (sync env cfg w s) = [EvTargetHandler None; EvGetOauthToken (Raise e)])
  /\ (forall token, In (EvGetOauthToken (Ok token)) (events_of (sync env cfg w s)) ->
        exists wm failure, res_of (sync env cfg w s) = Ok (wm, failure)).
Proof.
  destruct (sync_run_pass w _ _ (sync_sound env cfg w s))
    as [(e0 & Hr & Hevs) | (tok & t0 & rl & c & body & Hevs & Hrun & Hr)]; rewrite Hr.
  - split.
    + intros e [= <-]. exact Hevs.
    + intros token Hin. exfalso.
      destruct Hevs as [Hevs | Hevs]; rewrite Hevs in Hin.
      * destruct Hin as [H|[]]. discriminate H.
      * destruct Hin as [H|[H|[]]]; discriminate H.
  - split; [intros e H; discriminate H|]. intros _ _. eauto.
Qed.

End WithEnv.
End PassMore.

(** ** Facts about the polling loop *)

Module LoopFacts.
Import Text Datetime Effects Connector Trace Observed.
Import TextFacts DatetimeFacts LineFacts TimeFacts.
Import Soundness PassFacts SyncFacts RunFacts FileFacts ObservedFacts Checkpoint.

Section WithEnv.
Context {World : Type} (env : Env World).

Lemma remaining_after_eq t freq (s : State World) :
  remaining_after env t freq s =
  if in_range 0 (to_micro t + freq) (to_micro datetime_max) then
    match utcnow env (world s) with
    | (now, w1) =>
        (Ok (to_micro t + freq - to_micro now), mk_state w1 (files s), [EvUtcNow now])
    end
  else (Raise (OverflowError "date value out of range"), s, []).
Proof.
  unfold remaining_after. destruct (in_range _ _ _); [|reflexivity].
  unfold bind, datetime_utcnow, ret. destruct (utcnow env (world s)) as [now w1].
  reflexivity.
Qed.

Lemma remaining_after_files t freq (s : State World) :
  files (state_of (remaining_after env t freq s)) = files s.
Proof.
  rewrite remaining_after_eq. destruct (in_range _ _ _); [|reflexivity].
  destruct (utcnow env (world s)). reflexivity.
Qed.

Lemma wait_files d (s : State World) : files (state_of (wait env d s)) = files s.
Proof. rewrite wait_eq. unfold state_of. cbn [fst snd]. destruct (d <=? 0); reflexivity. Qed.

Lemma saved_state_files wm cfg (s : State World) :
  files (saved_state env wm cfg s)
  = <[tracking_file env (target_implementation cfg) :=
        default "" (files s !! tracking_file env (target_implementation cfg))
        +:+ isoformat wm +:+ String LF ""]> (files s).
Proof. reflexivity. Qed.

(** The files after a turn of the loop. *)
Lemma run_once_files cfg w (s : State World) :
  files (state_of (run_once env cfg w s)) =
  match res_of (run_once env cfg w s) with
  | Ok wm =>
      <[tracking_file env (target_implementation cfg) :=
          default "" (files s !! tracking_file env (target_implementation cfg))
          +:+ isoformat wm +:+ String LF ""]> (files s)
  | Raise _ => files s
  end.
Proof.
  rewrite run_once_eq. destruct (utcnow env (world s)) as [t w1].
  pose proof (sync_files env cfg w (mk_state w1 (files s))) as Hf.
  destruct (sync env cfg w (mk_state w1 (files s))) as [[[[wm [e|]]|e] s1] evs];
    unfold state_of, res_of in *; cbn [fst snd files] in *.
  - fold (state_of (wait env (polling_retry_minimum cfg) (saved_state env wm cfg s1))).
    rewrite wait_files, saved_state_files, Hf. reflexivity.
  - pose proof (remaining_after_files t (polling_frequency cfg) s1) as Hr.
    destruct (remaining_after env t (polling_frequency cfg) s1) as [[[d|e] s2] evs2];
      unfold state_of in *; cbn [fst snd] in *.
    + fold (state_of (wait env d (saved_state env wm cfg s2))).
      rewrite wait_files, saved_state_files, Hr, Hf. reflexivity.
    + congruence.
  - exact Hf.
Qed.

Lemma run_loop_files cfg n : forall w (s : State World),
  files (state_of (run_loop env n cfg w s)) =
  match saved (events_of (run_loop env n cfg w s)) with
  | [] => files s
  | ws =>
      <[tracking_file env (target_implementation cfg) :=
          file_after (default "" (files s !! tracking_file env (target_implementation cfg)))
                     ws]> (files s)
  end.
Proof.
  induction n as [|n IH]; intros w s; [reflexivity|].
  rewrite run_loop_succ.
  pose proof (run_once_saved env cfg w s) as Hsaved.
  pose proof (run_once_files cfg w s) as Hfiles.
  destruct (run_once env cfg w s) as [[[wm|e] s1] evs1];
    unfold events_of, res_of, state_of in *; cbn [fst snd] in *.
  - specialize (IH wm s1).
    destruct (run_loop env n cfg wm s1) as [[r s2] evs2]. cbn [fst snd] in *.
    rewrite saved_app, Hsaved. cbn [app]. rewrite IH, Hfiles.
    rewrite lookup_insert_eq. cbn [default from_option file_after].
    destruct (saved evs2) as [|w2 ws2]; [reflexivity|].
    rewrite insert_insert_eq. reflexivity.
  - rewrite Hsaved. exact Hfiles.
Qed.

Lemma run_eq n cfg (s : State World) :
  run env n cfg s =
  match res_of (get_last_update_time env (target_implementation cfg) s) with
  | Ok w0 => run_loop env n cfg w0 s
  | Raise e => (Raise e, s, [])
  end.
Proof.
  destruct (get_last_update_time_pure env (target_implementation cfg) s) as (Hs & Hevs).
  unfold run, bind.
  destruct (get_last_update_time env (target_implementation cfg) s) as [[r s1] evs1].
  unfold res_of, state_of, events_of in *. cbn [fst snd] in *. subst s1 evs1.
  destruct r as [w0|e]; [|reflexivity].
  destruct (run_loop env n cfg w0 s) as [[r s2] evs2]. reflexivity.
Qed.

(** *** The watermark asked for, over the turns *)

Lemma sync_run_resumes w r evs : sync_run w r evs -> resumes w evs.
Proof.
  destruct 1 as [e | e | tok t0 rl c body Hrun]; [exact I | exact I |].
  exact (pass_run_resumes _ _ _ _ _ _ _ Hrun).
Qed.

Lemma run_once_resumes cfg w (s : State World) :
  resumes w (events_of (run_once env cfg w s)).
Proof.
  rewrite run_once_eq. destruct (utcnow env (world s)) as [t w1].
  pose proof (sync_sound env cfg w (mk_state w1 (files s))) as Hs.
  pose proof (sync_run_saved _ _ _ Hs) as Hq. apply sync_run_resumes in Hs.
  destruct (sync env cfg w (mk_state w1 (files s))) as [[[[wm [e|]]|e] s1] evs];
    unfold events_of, res_of in *; cbn [fst snd] in *.
  - cbn [resumes]. apply resumes_app. split; [exact Hs|].
    unfold wait_events. destruct (_ <=? 0); exact I.
  - rewrite remaining_after_eq. destruct (in_range _ _ _).
    + destruct (utcnow env (world s1)) as [now w2]. cbn [fst snd resumes].
      apply resumes_app. split; [exact Hs|].
      unfold wait_events. destruct (_ <=? 0); exact I.
    + cbn [fst snd resumes]. rewrite app_nil_r. exact Hs.
  - exact Hs.
Qed.

Lemma run_loop_resumes cfg n : forall w (s : State World),
  resumes w (events_of (run_loop env n cfg w s)).
Proof.
  induction n as [|n IH]; intros w s; [exact I|].
  rewrite run_loop_succ.
  pose proof (run_once_saved env cfg w s) as Hsaved.
  pose proof (run_once_resumes cfg w s) as Hres.
  destruct (run_once env cfg w s) as [[[wm|e] s1] evs1];
    unfold events_of, res_of in *; cbn [fst snd] in *; [|exact Hres].
  specialize (IH wm s1).
  destruct (run_loop env n cfg wm s1) as [[r s2] evs2]. cbn [fst snd] in *.
  apply resumes_app. split; [exact Hres|].
  unfold last_saved. rewrite Hsaved. exact IH.
Qed.

End WithEnv.
End LoopFacts.

(** ** Proper datetimes *)

Module ValidFacts.
Import Text Datetime Effects Connector Trace Observed.
Import TextFacts DatetimeFacts LineFacts TimeFacts.
Import Soundness PassFacts SyncFacts RunFacts FileFacts ObservedFacts Checkpoint LoopFacts.

Lemma parse_digits_bound n : forall s v r,
  parse_digits n s = Some (v, r) -> 0 <= v < 10 ^ Z.of_nat n.
Proof.
  induction n as [|n IH]; intros s v r H.
  - injection H as <- _. simpl. lia.
  - rewrite Nat2Z.inj_succ, Z.pow_succ_r by lia. cbn [parse_digits] in H.
    destruct (parse_digits n s) as [[v' [|c rest]]|] eqn:Hn; try discriminate H.
    destruct (is_digit c) eqn:Hc; [|discriminate H]. injection H as <- _.
    pose proof (IH _ _ _ Hn). pose proof (is_digit_val c Hc). lia.
Qed.

Lemma parse_fraction_bound t followed us rv :
  parse_fraction t followed = Some (us, rv) -> 0 <= us <= 999999.
Proof.
  unfold parse_fraction. intros H.
  destruct (String.length t =? 6)%nat.
  - destruct (parse_digits 6 t) as [[v r]|] eqn:Hd; [|discriminate H].
    injection H as <- _. apply parse_digits_bound in Hd.
    change (10 ^ Z.of_nat 6) with 1000000 in Hd. lia.
  - destruct (String.length t =? 3)%nat; [|discriminate H].
    destruct (parse_digits 3 t) as [[v r]|] eqn:Hd; [|discriminate H].
    injection H as <- _. apply parse_digits_bound in Hd.
    change (10 ^ Z.of_nat 3) with 1000 in Hd. lia.
Qed.

Lemma parse_fields_bound n : forall t followed vs us rv,
  parse_fields n t followed = Some (vs, us, rv) ->
  List.Forall (fun v => 0 <= v) vs /\ 0 <= us <= 999999.
Proof.
  induction n as [|n IH]; intros t followed vs us rv H; cbn [parse_fields] in H.
  - destruct (parse_fraction t followed) as [[us' rv']|] eqn:Hf; [|discriminate H].
    injection H as <- <- _. split; [constructor|]. exact (parse_fraction_bound _ _ _ _ Hf).
  - destruct (parse_digits 2 t) as [[v t']|] eqn:Hd; [|discriminate H].
    apply parse_digits_bound in Hd.
    assert (0 <= v) by lia.
    destruct (read_separator t' followed) as [rv'|t''|t''|]; [| | |discriminate H].
    + injection H as <- <- _. split; [repeat constructor; assumption|lia].
    + destruct (parse_fields n t'' followed) as [[[vs' us'] rv']|] eqn:Hn;
        [|discriminate H].
      injection H as <- <- _. destruct (IH _ _ _ _ _ Hn) as [Hvs Hus].
      split; [constructor; assumption|exact Hus].
    + destruct (parse_fraction t'' followed) as [[us' rv']|] eqn:Hf; [|discriminate H].
      injection H as <- <- _.
      split; [repeat constructor; assumption|exact (parse_fraction_bound _ _ _ _ Hf)].
Qed.

Lemma nth_nonneg n vs : List.Forall (fun v => 0 <= v) vs -> 0 <= nth n vs 0.
Proof.
  intros H. revert n. induction H as [|v vs Hv _ IH]; intros [|n]; simpl; auto; lia.
Qed.

Lemma parse_hh_mm_ss_ff_bound t followed H M sec us rv :
  parse_hh_mm_ss_ff t followed = Some (H, M, sec, us, rv) ->
  0 <= H /\ 0 <= M /\ 0 <= sec /\ 0 <= us <= 999999.
Proof.
  unfold parse_hh_mm_ss_ff. intros Hp.
  destruct (parse_fields 3 t followed) as [[[vs us'] rv']|] eqn:Hf; [|discriminate Hp].
  injection Hp as <- <- <- <- _. destruct (parse_fields_bound _ _ _ _ _ _ Hf) as [Hvs Hus].
  auto using nth_nonneg.
Qed.

(** The offset that [fromisoformat] gives is 0 or at least a second. *)
Lemma tzinfo_from_isoformat_results_plain t H M sec us zone tz :
  parse_isoformat_time t = Some (H, M, sec, us, zone) ->
  tzinfo_from_isoformat_results zone = Some tz ->
  match tz with
  | None => True
  | Some offset =>
      valid_offset offset = true /\ (offset =? 0) || (seconds 1 <=? Z.abs offset) = true
  end.
Proof.
  unfold parse_isoformat_time. intros Hp Hz.
  destruct (split_sign t) as [time [[sign zone_text]|]].
  - destruct (parse_hh_mm_ss_ff time true) as [[[[[H' M'] sec'] us'] rv']|];
      [|discriminate Hp].
    destruct (_ || _); [|discriminate Hp].
    destruct (parse_hh_mm_ss_ff zone_text false) as [[[[[h m] s0] u] rv]|] eqn:Hzone;
      [|discriminate Hp].
    destruct rv; [discriminate Hp|]. injection Hp as _ _ _ _ <-.
    apply parse_hh_mm_ss_ff_bound in Hzone as (Hh & Hm & Hs & Hu).
    unfold tzinfo_from_isoformat_results in Hz.
    destruct (Z.eqb_spec ((if ascii_eqb sign "-" then -1 else 1) * (h * 3600 + m * 60 + s0))
                0) as [_|Hnz].
    + injection Hz as <-. split; reflexivity.
    + destruct (valid_offset _) eqn:Hvalid; [|discriminate Hz]. injection Hz as <-.
      split; [exact Hvalid|]. apply orb_true_intro. right. apply Z.leb_le.
      unfold seconds. destruct (ascii_eqb sign "-"); lia.
  - destruct (parse_hh_mm_ss_ff time false) as [[[[[H' M'] sec'] us'] rv']|];
      [|discriminate Hp].
    destruct rv'; [discriminate Hp|]. injection Hp as _ _ _ _ <-.
    injection Hz as <-. exact I.
Qed.

Lemma make_datetime_tz_some y m d H M sec us tz t :
  make_datetime_tz y m d H M sec us tz = Some t ->
  valid_fields t = true /\ tzinfo t = tz.
Proof.
  unfold make_datetime_tz. destruct (valid_fields _) eqn:Hv; [|discriminate].
  intros [= <-]. auto.
Qed.

Lemma fromisoformat_storable s t : fromisoformat s = Some t -> storable t = true.
Proof.
  unfold fromisoformat. intros H.
  destruct (parse_digits 4 s) as [[y s1]|]; [|discriminate H].
  destruct (expect "-" s1) as [s2|]; [|discriminate H].
  destruct (parse_digits 2 s2) as [[m s3]|]; [|discriminate H].
  destruct (expect "-" s3) as [s4|]; [|discriminate H].
  destruct (parse_digits 2 s4) as [[d [|c rest]]|]; [| |discriminate H].
  - apply valid_datetime_storable. exact (proj1 (make_datetime_some _ _ _ _ _ _ _ _ H)).
  - destruct (parse_isoformat_time rest) as [[[[[H' M'] sec'] us'] zone]|] eqn:Hp;
      [|discriminate H].
    destruct (tzinfo_from_isoformat_results zone) as [tz|] eqn:Hz; [|discriminate H].
    pose proof (tzinfo_from_isoformat_results_plain _ _ _ _ _ _ _ Hp Hz) as Htz.
    apply make_datetime_tz_some in H as [Hv <-].
    unfold storable. rewrite Hv. destruct (tzinfo t) as [offset|]; [|reflexivity].
    destruct Htz as [-> ->]. reflexivity.
Qed.

Lemma candidate_storable us : forall c,
  storable c = true -> storable (candidate c us) = true.
Proof.
  induction us as [|u us IH]; intros c Hc; [exact Hc|].
  unfold candidate. cbn [fold_left]. apply IH.
  destruct (update_time_of u) as [t|] eqn:Ht; [|exact Hc].
  apply valid_datetime_storable. exact (proj1 (strptime_some _ _ Ht)).
Qed.

Lemma sync_run_storable w r evs wm exc :
  sync_run w r evs -> storable w = true ->
  forallb valid_datetime (clock_readings evs) = true ->
  r = Ok (wm, exc) -> storable wm = true.
Proof.
  intros Hs Hw Hclock Hr.
  apply sync_run_pass in Hs as [(e0 & -> & _) | (tok & t0 & rl & c & body & -> & Hrun & ->)];
    [discriminate Hr|].
  injection Hr as <- _.
  change (clock_readings (_ :: _ :: _ :: body)) with (t0 :: clock_readings body) in Hclock.
  cbn [forallb] in Hclock. apply andb_prop in Hclock as [Ht0 _].
  destruct rl as [[]|e]; [apply valid_datetime_storable, Ht0|].
  destruct (pass_run_progress _ _ _ _ _ _ _ Hrun) as (done & rest & _ & _ & -> & _).
  apply candidate_storable, Hw.
Qed.

Section WithEnv.
Context {World : Type} (env : Env World).

Lemma run_once_storable cfg w (s : State World) wm :
  storable w = true ->
  forallb valid_datetime (clock_readings (events_of (run_once env cfg w s))) = true ->
  res_of (run_once env cfg w s) = Ok wm -> storable wm = true.
Proof.
  rewrite run_once_eq. destruct (utcnow env (world s)) as [t w1].
  pose proof (sync_sound env cfg w (mk_state w1 (files s))) as Hs.
  destruct (sync env cfg w (mk_state w1 (files s))) as [[[[wm' exc]|e] s1] evs];
    unfold events_of, res_of in *; cbn [fst snd] in *; [|discriminate].
  intros Hw Hclock Hr.
  assert (forallb valid_datetime (clock_readings evs) = true /\ wm' = wm) as [Hc ->].
  { destruct exc as [e|].
    - cbn [fst snd] in *.
      change (clock_readings (EvUtcNow t :: ?l)) with (t :: clock_readings l) in Hclock.
      rewrite clock_readings_app in Hclock. cbn [forallb] in Hclock.
      rewrite forallb_app in Hclock.
      apply andb_prop in Hclock as [_ Hclock]. apply andb_prop in Hclock as [Hc _].
      injection Hr as ->. auto.
    - rewrite remaining_after_eq in *. destruct (in_range _ _ _); [|discriminate Hr].
      destruct (utcnow env (world s1)) as [now w2]. cbn [fst snd] in *.
      change (clock_readings (EvUtcNow t :: ?l)) with (t :: clock_readings l) in Hclock.
      rewrite clock_readings_app in Hclock. cbn [forallb] in Hclock.
      rewrite forallb_app in Hclock.
      apply andb_prop in Hclock as [_ Hclock]. apply andb_prop in Hclock as [Hc _].
      injection Hr as ->. auto. }
  exact (sync_run_storable w _ evs wm exc Hs Hw Hc eq_refl).
Qed.

Lemma run_loop_saved_storable cfg n : forall w (s : State World),
  storable w = true ->
  forallb valid_datetime (clock_readings (events_of (run_loop env n cfg w s))) = true ->
  forallb storable (saved (events_of (run_loop env n cfg w s))) = true.
Proof.
  induction n as [|n IH]; intros w s Hw Hclock; [reflexivity|].
  rewrite run_loop_succ in *.
  pose proof (run_once_saved env cfg w s) as Hsaved.
  pose proof (run_once_storable cfg w s) as Hvalid.
  destruct (run_once env cfg w s) as [[[wm|e] s1] evs1];
    unfold events_of, res_of in *; cbn [fst snd] in *.
  - specialize (IH wm s1).
    destruct (run_loop env n cfg wm s1) as [[r s2] evs2]. cbn [fst snd] in *.
    rewrite clock_readings_app, forallb_app in Hclock.
    apply andb_prop in Hclock as [Hc1 Hc2].
    rewrite saved_app, Hsaved, forallb_app. cbn [forallb].
    rewrite (Hvalid wm Hw Hc1 eq_refl). cbn [andb]. apply IH; [|exact Hc2].
    exact (Hvalid wm Hw Hc1 eq_refl).
  - rewrite Hsaved. reflexivity.
Qed.

Lemma load_storable impl (s : State World) w0 :
  res_of (get_last_update_time env impl s) = Ok w0 -> storable w0 = true.
Proof.
  unfold get_last_update_time, res_of.
  destruct (files s !! tracking_file env impl) as [content|];
    [|intros [= <-]; reflexivity].
  destruct (last (readlines content)) as [line|]; [|intros [= <-]; reflexivity].
  destruct (fromisoformat (strip line)) as [t|] eqn:Ht; [|discriminate].
  intros [= <-]. exact (fromisoformat_storable _ _ Ht).
Qed.

End WithEnv.

(** *** The last line of the checkpoint file *)

Lemma ends_lines_app a : forall t, t <> "" -> ends_lines (a +:+ t) = ends_lines t.
Proof.
  induction a as [|c a IH]; intros t Ht; [reflexivity|].
  rewrite append_cons, ends_lines_cons; [apply IH, Ht|].
  destruct a; [exact Ht|discriminate].
Qed.

Lemma ends_lines_line s : ends_lines (s +:+ String LF "") = true.
Proof.
  rewrite ends_lines_app by discriminate. reflexivity.
Qed.

Lemma file_after_last ws : forall prior wm,
  ends_lines prior = true -> last ws = Some wm ->
  last (readlines (file_after prior ws)) = Some (isoformat wm +:+ String LF "")
  /\ ends_lines (file_after prior ws) = true.
Proof.
  induction ws as [|w ws IH]; intros prior wm Hends Hlast; [discriminate Hlast|].
  cbn [file_after].
  assert (Hends' : ends_lines (prior +:+ isoformat w +:+ String LF "") = true).
  { rewrite <- append_assoc. apply ends_lines_line. }
  destruct ws as [|w' ws].
  - injection Hlast as <-. cbn [file_after]. split; [|exact Hends'].
    rewrite readlines_append_line;
      [apply last_snoc | exact Hends | apply isoformat_no_newline | apply isoformat_not_empty].
  - apply IH; [exact Hends'|]. rewrite last_cons_cons in Hlast. exact Hlast.
Qed.

End ValidFacts.

(** ** More on the polling loop *)

Module LoopMore.
Import Text Datetime Effects Connector Trace Observed.
Import TextFacts DatetimeFacts LineFacts TimeFacts.
Import Soundness PassFacts SyncFacts RunFacts FileFacts ObservedFacts Checkpoint.
Import LoopFacts ValidFacts.

Section WithEnv.
Context {World : Type} (env : Env World).

(** X9.  Over the turns of the polling loop every enumeration call asks
    for the changes since the watermark in force: the one read from the
    checkpoint file in the first pass, then the one the pass before has
    saved.  Within a pass it stays the same on every page. *)
Theorem run_resumes (n : nat) (cfg : ConnectorConfig) (s : State World) (w0 : datetime) :
  res_of (get_last_update_time env (target_implementation cfg) s) = Ok w0 ->
  resumes w0 (events_of (run env n cfg s)).
Proof.
  intros Hload. rewrite run_eq, Hload. apply run_loop_resumes.
Qed.

(** X10.  After a pass that returned a failure, the turn of the loop
    logs the failure, saves the watermark returned, and only then waits,
    for the retry interval and not for the polling frequency; it goes
    on with that watermark. *)
Theorem run_once_after_failure (cfg : ConnectorConfig) (w : datetime) (s0 : State World)
    (wm : datetime) (e : exn) :
  res_of (sync env cfg w (state_of (datetime_utcnow env s0))) = Ok (wm, Some e) ->
  res_of (run_once env cfg w s0) = Ok wm
  /\ events_of (run_once env cfg w s0)
     = events_of (datetime_utcnow env s0)
       ++ events_of (sync env cfg w (state_of (datetime_utcnow env s0)))
       ++ [log_failure e; save_event env cfg wm]
       ++ wait_events (polling_retry_minimum cfg).
Proof.
  rewrite run_once_eq. unfold datetime_utcnow.
  destruct (utcnow env (world s0)) as [t w1].
  unfold state_of, events_of, res_of. cbn [fst snd].
  destruct (sync env cfg w (mk_state w1 (files s0))) as [[r s1] evs].
  cbn [fst snd]. intros ->. split; reflexivity.
Qed.

(** X11.  After a pass that returned no failure, the turn of the loop
    reads the clock again, saves the watermark returned, and then waits
    for what is left of the polling frequency, counted from the start of
    the turn; when nothing is left it logs a warning and does not
    sleep. *)
Theorem run_once_after_success (cfg : ConnectorConfig) (w : datetime) (s0 : State World)
    (wm start now : datetime) :
  res_of (datetime_utcnow env s0) = Ok start ->
  res_of (sync env cfg w (state_of (datetime_utcnow env s0))) = Ok (wm, None) ->
  res_of (datetime_utcnow env (state_of (sync env cfg w (state_of (datetime_utcnow env s0)))))
    = Ok now ->
  in_range 0 (to_micro start + polling_frequency cfg) (to_micro datetime_max) = true ->
  res_of (run_once env cfg w s0) = Ok wm
  /\ events_of (run_once env cfg w s0)
     = EvUtcNow start
       :: events_of (sync env cfg w (state_of (datetime_utcnow env s0)))
       ++ [EvUtcNow now]
       ++ save_event env cfg wm
       :: wait_events (to_micro start + polling_frequency cfg - to_micro now)
  /\ (to_micro start + polling_frequency cfg <= to_micro now ->
      sleeps (wait_events (to_micro start + polling_frequency cfg - to_micro now)) = []).
Proof.
  intros Hstart Hsync Hnow Hrange.
  rewrite run_once_eq. unfold datetime_utcnow in *.
  destruct (utcnow env (world s0)) as [t w1].
  unfold state_of, events_of, res_of in *. cbn [fst snd] in *.
  injection Hstart as ->.
  destruct (sync env cfg w (mk_state w1 (files s0))) as [[r s1] evs].
  cbn [fst snd] in *. subst r.
  rewrite remaining_after_eq, Hrange.
  destruct (utcnow env (world s1)) as [now' w2].
  cbn [fst snd] in *. injection Hnow as ->. clear Hrange.
  split; [reflexivity|]. split.
  - generalize (wait_events (to_micro start + polling_frequency cfg - to_micro now)).
    intros rest. reflexivity.
  - intros Hle. unfold wait_events.
    destruct (Z.leb_spec (to_micro start + polling_frequency cfg - to_micro now) 0);
      [reflexivity | lia].
Qed.

(** X12.  The polling loop only ever adds to the checkpoint file: after
    any number of turns the file holds what it held before, followed by
    one line for each watermark saved, in the order saved.  No other file
    is touched. *)
Theorem run_appends_lines (n : nat) (cfg : ConnectorConfig) (s : State World) :
  (forall path, path <> tracking_file env (target_implementation cfg) ->
     files (state_of (run env n cfg s)) !! path = files s !! path)
  /\ (saved (events_of (run env n cfg s)) = [] ->
      files (state_of (run env n cfg s)) = files s)
  /\ (saved (events_of (run env n cfg s)) <> [] ->
      files (state_of (run env n cfg s)) !! tracking_file env (target_implementation cfg)
      = Some (file_after
                (default "" (files s !! tracking_file env (target_implementation cfg)))
                (saved (events_of (run env n cfg s))))).
Proof.
  rewrite run_eq.
  destruct (res_of (get_last_update_time env (target_implementation cfg) s)) as [w0|e].
  - rewrite run_loop_files.
    destruct (saved (events_of (run_loop env n cfg w0 s))) as [|w1 ws].
    + split; [reflexivity|]. split; [reflexivity|]. congruence.
    + split; [|split; [discriminate|]].
      * intros path Hne. apply lookup_insert_ne. congruence.
      * intros _. apply lookup_insert_eq.
  - split; [reflexivity|]. split; [reflexivity|]. intros H. exfalso. apply H. reflexivity.
Qed.

(** X13.  Restarting resumes where the loop stopped: when the checkpoint
    file was missing, empty or ended with a line terminator, and the
    clock gave proper datetimes, the watermark read from the file after
    any number of turns is the last one saved. *)
Theorem restart_resumes (n : nat) (cfg : ConnectorConfig) (s : State World)
    (wm : datetime) :
  ends_lines (default "" (files s !! tracking_file env (target_implementation cfg))) = true ->
  forallb valid_datetime (clock_readings (events_of (run env n cfg s))) = true ->
  last (saved (events_of (run env n cfg s))) = Some wm ->
  res_of (get_last_update_time env (target_implementation cfg)
            (state_of (run env n cfg s))) = Ok wm.
Proof.
  intros Hends Hclock Hlast. rewrite run_eq in *.
  destruct (res_of (get_last_update_time env (target_implementation cfg) s))
    as [w0|e] eqn:Hload; [|discriminate Hlast].
  pose proof (run_loop_saved_storable env cfg n w0 s (load_storable env _ s w0 Hload)
                Hclock) as Hvalid.
  pose proof (run_loop_files env cfg n w0 s) as Hfiles.
  destruct (saved (events_of (run_loop env n cfg w0 s))) as [|w1 ws] eqn:Hsaved;
    [discriminate Hlast|].
  assert (Hwm : storable wm = true).
  { rewrite forallb_forall in Hvalid. apply Hvalid.
    apply last_Some in Hlast as [l' ->]. apply in_or_app. right. left. reflexivity. }
  destruct (file_after_last (w1 :: ws)
              (default "" (files s !! tracking_file env (target_implementation cfg)))
              wm Hends Hlast) as [Hline _].
  unfold get_last_update_time, res_of.
  rewrite Hfiles, lookup_insert_eq, Hline, strip_isoformat_line.
  rewrite (storable_fromisoformat_isoformat wm Hwm). reflexivity.
Qed.

(** X14.  Connectors for different target implementations keep separate
    checkpoint files: saving a watermark for one implementation leaves
    the checkpoint of any other as it was. *)
Theorem save_keeps_other_checkpoints (w : datetime) (a b : string) (s : State World) :
  a <> b ->
  tracking_file env a <> tracking_file env b
  /\ files (state_of (save_last_update_time env w a s)) !! tracking_file env b
     = files s !! tracking_file env b
  /\ res_of (get_last_update_time env b (state_of (save_last_update_time env w a s)))
     = res_of (get_last_update_time env b s).
Proof.
  intros Hne.
  assert (Hpath : tracking_file env a <> tracking_file env b).
  { unfold tracking_file, path_join. intros Heq. apply Hne.
    destruct (home env) as [|c h] eqn:Hhome.
    - apply (inj (String.app ".panopto-connector.")) in Heq. exact Heq.
    - destruct (String.get _ _) as [c'|];
        [destruct (Ascii.eqb_spec c' "/"%char) as [->|Hc]|].
      + apply (inj (String.app (String c h))) in Heq.
        apply (inj (String.app ".panopto-connector.")) in Heq. exact Heq.
      + assert (Heq' : String c h +:+ "/" +:+ ".panopto-connector." +:+ a
                       = String c h +:+ "/" +:+ ".panopto-connector." +:+ b).
        { destruct c' as [[] [] [] [] [] [] [] []]; try exact Heq; congruence. }
        apply (inj (String.app (String c h))) in Heq'.
        apply (inj (String.app "/")) in Heq'.
        apply (inj (String.app ".panopto-connector.")) in Heq'. exact Heq'.
      + apply (inj (String.app (String c h))) in Heq.
        apply (inj (String.app "/")) in Heq.
        apply (inj (String.app ".panopto-connector.")) in Heq. exact Heq. }
  assert (Hfile : files (state_of (save_last_update_time env w a s)) !! tracking_file env b
                  = files s !! tracking_file env b).
  { unfold save_last_update_time, state_of. cbn [fst snd files].
    apply lookup_insert_ne. exact Hpath. }
  split; [exact Hpath|]. split; [exact Hfile|].
  unfold get_last_update_time, res_of. rewrite Hfile.
  destruct (files s !! tracking_file env b) as [content|]; [|reflexivity].
  destruct (last (readlines content)) as [line|]; [|reflexivity].
  destruct (fromisoformat (strip line)); reflexivity.
Qed.

(** X15.  The token request is posted to the token endpoint of the site
    with the client identifier, the client secret, the grant type and the
    scope [api]; it carries a user name, and a password, exactly when the
    credentials hold a non-empty one. *)
Theorem oauth_token_request (site : string) (creds : Credentials) (s : State World) :
  exists data,
    get_oauth_token env site creds s
    = call (post_token env (site +:+ "/Panopto/oauth2/connect/token") data) s
    /\ forall key value,
         In (key, value) data <->
         (key, value) = ("client_id", client_id creds)
         \/ (key, value) = ("client_secret", client_secret creds)
         \/ (key, value) = ("grant_type", grant_type creds)
         \/ (key, value) = ("scope", "api")
         \/ (key = "username" /\ username creds = Some value /\ value <> "")
         \/ (key = "password" /\ password creds = Some value /\ value <> "").
Proof.
  unfold get_oauth_token. eexists. split; [reflexivity|].
  intros key value.
  destruct (username creds) as [[|cu u]|]; destruct (password creds) as [[|cp p]|];
    cbn [truthy app In]; rewrite ?in_app_iff; cbn [In];
    split; intros H;
    repeat match goal with
           | H : _ \/ _ |- _ => destruct H as [H|H]
           | H : _ /\ _ |- _ => destruct H
           | H : False |- _ => destruct H
           | H : (_, _) = (_, _) |- _ => injection H as <- <-
           | H : Some _ = Some _ |- _ => injection H as <-
           | H : Some _ = None |- _ => discriminate H
           | H : None = Some _ |- _ => discriminate H
           end; subst; try congruence; auto 12.
Qed.

(** X19.  What loading returns can be saved and is then loaded again,
    whatever the line it was read from, also when that line carries a UTC
    offset and the watermark is an aware datetime: when the checkpoint
    file is missing, empty or ends with a line terminator, loading after
    the watermark loaded has been saved returns that watermark. *)
Theorem load_save_load (w0 : datetime) (implementation_name : string) (s : State World) :
  res_of (get_last_update_time env implementation_name s) = Ok w0 ->
  ends_lines (default "" (files s !! tracking_file env implementation_name)) = true ->
  res_of (get_last_update_time env implementation_name
            (state_of (save_last_update_time env w0 implementation_name s))) = Ok w0.
Proof.
  intros Hload Hends.
  pose proof (load_storable env implementation_name s w0 Hload) as Hw0.
  unfold get_last_update_time, res_of, save_last_update_time, state_of.
  cbn [fst snd files]. rewrite lookup_insert_eq.
  rewrite readlines_append_line;
    [|exact Hends | apply isoformat_no_newline | apply isoformat_not_empty].
  rewrite last_snoc, strip_isoformat_line, (storable_fromisoformat_isoformat w0 Hw0).
  reflexivity.
Qed.

End WithEnv.

(** X16.  Whatever follows the first full stop of an [UpdateTime] is
    ignored: the time recorded for the record is read from the text
    before it alone. *)
Theorem update_time_ignores_fraction (video_id base rest : string) :
  all_chars (fun c => negb (ascii_eqb c ".")) base = true ->
  update_time_of (mk_update video_id (base +:+ String "." rest)) = strptime base.
Proof.
  intros Hbase. unfold update_time_of. cbn [UpdateTime]. f_equal.
  induction base as [|c base IH]; [reflexivity|].
  cbn [all_chars] in Hbase. apply andb_prop in Hbase as [Hc Hbase].
  rewrite append_cons. cbn [split_head].
  destruct (ascii_eqb c "."); [discriminate Hc|]. rewrite (IH Hbase). reflexivity.
Qed.

End LoopMore.

(** ** What is sent *)

Module RequestFacts.
Import Text Datetime Effects Connector Trace Requests.
Import Soundness.

Section WithEnv.
Context {World : Type} (env : Env World).

Lemma sync_video_by_id_requests (h : Handler env) (token : string) (cfg : ConnectorConfig)
    (video_id : string) (s : State (World * list request)) :
  let x := sync_video_by_id (recorded env) h token cfg video_id s in
  let fetch := ReqContent (content_url cfg) video_id (bearer token) in
  (exists e, res_of x = Raise e /\ requests (state_of x) = requests s ++ [fetch])
  \/ (exists content,
        Deleted content = true
        /\ requests (state_of x) = requests s ++ [fetch; ReqDelete (Id content)])
  \/ (exists content,
        Deleted content = false
        /\ ((exists e, res_of x = Raise e
                       /\ requests (state_of x) = requests s ++ [fetch; ReqConvert content])
            \/ requests (state_of x)
               = requests s ++ [fetch; ReqConvert content; ReqPush cfg])).
Proof.
  cbv zeta.
  unfold sync_video_by_id, get_video_content, bind, call, res_of, state_of, requests.
  cbn [recorded get_content delete_from_target convert_to_target push_to_target noting].
  unfold noting. cbn [fst snd world].
  destruct (get_content env _ _ _ (fst (world s))) as [[vc|e] w1]; cbn [fst snd world].
  - destruct (Deleted vc) eqn:Hdel; cbn [fst snd world].
    + right. left. exists vc. split; [exact Hdel|].
      destruct (delete_from_target env h (Id vc) w1) as [r w2]. cbn [fst snd world].
      rewrite <- app_assoc. reflexivity.
    + right. right. exists vc. split; [exact Hdel|].
      destruct (convert_to_target env h vc w1) as [[tc|e] w2]; cbn [fst snd world].
      * right. destruct (push_to_target env h tc cfg w2) as [r w3]. cbn [fst snd world].
        rewrite <- !app_assoc. reflexivity.
      * left. exists e. split; [reflexivity|]. rewrite <- app_assoc. reflexivity.
  - left. exists e. split; reflexivity.
Qed.


(** X17.  To synchronise an item the connector fetches its content with
    the token of the pass, and what it does next is decided by the answer
    to that request.  When the request raises, nothing more is done.  When
    the content received is marked deleted, its identifier is deleted from
    the target, and nothing is converted or pushed.  Otherwise that
    content is converted and, unless the conversion raises, the result of
    the conversion is pushed with the configuration; nothing is
    deleted. *)
Theorem sync_video_requests (h : Handler env) (token : string) (cfg : ConnectorConfig)
    (video_id : string) (s : State (World * list request)) :
  let x := sync_video_by_id (recorded env) h token cfg video_id s in
  let fetch := ReqContent (content_url cfg) video_id (bearer token) in
  match get_content env (content_url cfg) video_id (bearer token) (fst (world s)) with
  | (Raise e, _) =>
      res_of x = Raise e /\ requests (state_of x) = requests s ++ [fetch]
  | (Ok content, w1) =>
      if Deleted content then
        res_of x = fst (delete_from_target env h (Id content) w1)
        /\ requests (state_of x) = requests s ++ [fetch; ReqDelete (Id content)]
      else
        match convert_to_target env h content w1 with
        | (Raise e, _) =>
            res_of x = Raise e
            /\ requests (state_of x) = requests s ++ [fetch; ReqConvert content]
        | (Ok target_content, w2) =>
            res_of x = fst (push_to_target env h target_content cfg w2)
            /\ requests (state_of x)
               = requests s ++ [fetch; ReqConvert content; ReqPush cfg]
        end
  end.
Proof.
  cbv zeta.
  unfold sync_video_by_id, get_video_content, bind, call, res_of, state_of, requests,
    content_url, bearer.
  cbn [recorded get_content delete_from_target convert_to_target push_to_target noting].
  unfold noting. cbn [fst snd world].
  destruct (get_content env _ _ _ (fst (world s))) as [[vc|e] w1]; cbn [fst snd world];
    [|split; reflexivity].
  destruct (Deleted vc); cbn [fst snd world].
  - destruct (delete_from_target env h (Id vc) w1) as [r w2]. cbn [fst snd world].
    rewrite <- app_assoc. split; reflexivity.
  - destruct (convert_to_target env h vc w1) as [[tc|e] w2]; cbn [fst snd world].
    + destruct (push_to_target env h tc cfg w2) as [r w3]. cbn [fst snd world].
      rewrite <- !app_assoc. split; reflexivity.
    + rewrite <- app_assoc. split; reflexivity.
Qed.

Lemma sync_video_by_id_authorized h token cfg w v (s : State (World * list request)) :
  exists calls,
    requests (state_of (sync_video_by_id (recorded env) h token cfg v s))
    = requests s ++ calls
    /\ Forall (authorized cfg token w) calls.
Proof.
  destruct (sync_video_by_id_requests h token cfg v s)
    as [(e & _ & ->) | [(vc & _ & ->) | (vc & _ & [(e & _ & ->) | ->])]];
    eexists; (split; [reflexivity|]); repeat constructor.
Qed.

Lemma for_updates_authorized h token cfg w us : forall fr (s : State (World * list request)),
  exists calls,
    requests (snd (state_of (for_updates (recorded env) h token cfg us (fr, s))))
    = requests s ++ calls
    /\ Forall (authorized cfg token w) calls.
Proof.
  induction us as [|u us IH]; intros fr s.
  - exists []. split; [symmetry; apply app_nil_r | constructor].
  - rewrite for_updates_cons.
    destruct (update_time_of u) as [t|];
      [|exists []; split; [symmetry; apply app_nil_r | constructor]].
    destruct (sync_video_by_id_authorized h token cfg w (VideoId u) s)
      as (calls1 & Hreq1 & Hall1).
    destruct (sync_video_by_id (recorded env) h token cfg (VideoId u) s)
      as [[[[]|e] s1] evs1]; unfold state_of in *; cbn [fst snd] in *.
    + destruct (IH (mk_frame (next_token fr) t)
                   (mk_state (sleep (recorded env) (seconds 2) (world s1)) (files s1)))
        as (calls2 & Hreq2 & Hall2).
      destruct (for_updates (recorded env) h token cfg us _) as [[r fs] evs].
      cbn [fst snd] in *. exists (calls1 ++ calls2).
      split; [|apply Forall_app; auto].
      rewrite Hreq2. unfold requests at 1. cbn [world recorded sleep snd].
      fold (requests s1). rewrite Hreq1, app_assoc. reflexivity.
    + exists calls1. auto.
Qed.

Lemma for_range_authorized n h token cfg w : forall fr (s : State (World * list request)),
  exists calls,
    requests (snd (state_of (for_range (recorded env) n h token cfg w (fr, s))))
    = requests s ++ calls
    /\ Forall (authorized cfg token w) calls.
Proof.
  induction n as [|n IH]; intros fr s.
  - exists []. split; [symmetry; apply app_nil_r | constructor].
  - rewrite for_range_succ.
    unfold get_ids_to_update, call. cbn [recorded get_updates]. unfold noting.
    destruct (get_updates env _ w (next_token fr) _ (fst (world s))) as [[resp|e] w1];
      cbn [fst snd].
    + destruct (for_updates_authorized h token cfg w (Updates resp) fr
                  (mk_state (w1, snd (world s) ++
                               [ReqUpdates (updates_url cfg) w (next_token fr)
                                           (bearer token)]) (files s)))
        as (calls1 & Hreq1 & Hall1).
      unfold updates_url, bearer in *.
      destruct (for_updates (recorded env) h token cfg (Updates resp) _)
        as [[[[]|e] [fr2 s2]] evs]; unfold state_of in *; cbn [fst snd] in *.
      * cbv zeta. destruct (NextToken resp) as [tok'|].
        -- destruct (IH (mk_frame (Some tok') (new_last_update_time fr2)) s2)
             as (calls2 & Hreq2 & Hall2).
           destruct (for_range (recorded env) n h token cfg w _) as [[r fs] evs'].
           cbn [fst snd] in *. eexists. split.
           ++ rewrite Hreq2, Hreq1. unfold requests at 1. cbn [world snd].
              fold (requests s). rewrite <- !app_assoc. reflexivity.
           ++ constructor; [repeat split|]. apply Forall_app. auto.
        -- cbn [fst snd]. eexists. split.
           ++ rewrite Hreq1. unfold requests at 1. cbn [world snd].
              fold (requests s). rewrite <- !app_assoc. reflexivity.
           ++ constructor; [|exact Hall1]. repeat split.
      * eexists. split.
        -- rewrite Hreq1. unfold requests at 1. cbn [world snd].
           fold (requests s). rewrite <- !app_assoc. reflexivity.
        -- constructor; [|exact Hall1]. repeat split.
    + eexists. split; [reflexivity|]. constructor; [|constructor]. repeat split.
Qed.

(** X18.  A pass builds the target handler and asks for a token, once
    each and in that order, before anything else.  Every request that
    follows is made with that token: the enumeration calls go to the
    change-list endpoint of the site and ask for the changes since the
    watermark of the pass, the content calls go to its content
    endpoint. *)
Theorem sync_requests (cfg : ConnectorConfig) (w : datetime) (s : State (World * list request)) :
  exists data,
    requests (state_of (sync (recorded env) cfg w s)) = requests s ++ [ReqHandler cfg]
    \/ requests (state_of (sync (recorded env) cfg w s))
       = requests s
         ++ [ReqHandler cfg;
             ReqToken (panopto_site_address cfg +:+ "/Panopto/oauth2/connect/token") data]
    \/ exists token calls,
         In (EvGetOauthToken (Ok token)) (events_of (sync (recorded env) cfg w s))
         /\ requests (state_of (sync (recorded env) cfg w s))
            = requests s
              ++ ReqHandler cfg
              :: ReqToken (panopto_site_address cfg +:+ "/Panopto/oauth2/connect/token")
                          data
              :: calls
         /\ Forall (authorized cfg token w) calls.
Proof.
  unfold sync, bind, traced, call, datetime_utcnow, get_oauth_token, call.
  cbn [recorded target_handler post_token utcnow]. unfold noting.
  eexists.
  destruct (target_handler env cfg (fst (world s))) as [[h|e] w1]; cbn [fst snd world];
    [|left; reflexivity].
  right.
  destruct (post_token env _ _ w1) as [[token|e] w2]; cbn [fst snd world files];
    [|left; unfold state_of, requests; cbn [fst snd world];
      rewrite <- app_assoc; reflexivity].
  right.
  destruct (utcnow env w2) as [t0 w3]. cbn [fst snd world files].
  match goal with
  | |- context [for_range _ _ _ _ _ _ (?fr, ?st)] =>
      destruct (for_range_authorized 1000 h token cfg w fr st) as (calls & Hreq & Hall);
      destruct (for_range (recorded env) 1000 h token cfg w (fr, st))
        as [[r [fr' s']] evs]
  end.
  unfold state_of, events_of, requests in *. cbn [fst snd world] in *.
  exists token, calls. split; [right; left; reflexivity|]. split; [|exact Hall].
  rewrite Hreq, <- !app_assoc. reflexivity.
Qed.

End WithEnv.
End RequestFacts.

(** ** Further examples *)

Module MoreExamples.
Import Text Datetime Effects Connector Trace Scenario Observed MoreScenarios.
Import PassMore LoopMore.

Lemma sync_complete_pass_witness :
  res_of (sync env_two_updates config T0 (fresh ∅)) = Ok (noon, None)
  /\ applied (events_of (sync env_two_updates config T0 (fresh ∅))) = ["a"; "b"]
  /\ item_failures (events_of (sync env_two_updates config T0 (fresh ∅))) = [].
Proof.
  assert (H : res_of (sync env_two_updates config T0 (fresh ∅)) = Ok (noon, None))
    by (vm_compute; reflexivity).
  destruct (sync_complete_pass env_two_updates config T0 (fresh ∅) noon H)
    as (Ha & Hf & _).
  split; [exact H|]. split; [|exact Hf].
  rewrite Ha. vm_compute. reflexivity.
Defined.

Lemma sync_unreadable_time_witness :
  res_of (sync env_zone_designator config T0 (fresh ∅))
    = Ok (T1, Some (ValueError "time data does not match format: 2020-03-01T10:00:05Z"))
  /\ item_failures (events_of (sync env_zone_designator config T0 (fresh ∅))) = []
  /\ forallb is_ok (get_ids_results (events_of (sync env_zone_designator config T0 (fresh ∅))))
     = true
  /\ exists done u post,
       enumerated (events_of (sync env_zone_designator config T0 (fresh ∅)))
         = done ++ u :: post
       /\ update_time_of u = None
       /\ ValueError "time data does not match format: 2020-03-01T10:00:05Z"
          = ValueError ("time data does not match format: " +:+ UpdateTime u)
       /\ T1 = candidate T0 done
       /\ sync_results (events_of (sync env_zone_designator config T0 (fresh ∅)))
          = map sync_ok done.
Proof.
  assert (H1 : res_of (sync env_zone_designator config T0 (fresh ∅))
               = Ok (T1, Some (ValueError
                                 "time data does not match format: 2020-03-01T10:00:05Z")))
    by (vm_compute; reflexivity).
  assert (H2 : item_failures (events_of (sync env_zone_designator config T0 (fresh ∅))) = [])
    by (vm_compute; reflexivity).
  assert (H3 : forallb is_ok
                 (get_ids_results (events_of (sync env_zone_designator config T0 (fresh ∅))))
               = true) by (vm_compute; reflexivity).
  split; [exact H1|]. split; [exact H2|]. split; [exact H3|].
  exact (sync_unreadable_time env_zone_designator config T0 (fresh ∅) T1 _ H1 H2 H3).
Defined.

Lemma sync_enumeration_failure_witness :
  In (EvGetIds T0 (Some "page2") (Raise server_error))
     (events_of (sync env_second_page_down config T0 (fresh ∅)))
  /\ applied (events_of (sync env_second_page_down config T0 (fresh ∅))) = ["a"; "b"]
  /\ res_of (sync env_second_page_down config T0 (fresh ∅)) = Ok (T2, Some server_error).
Proof.
  assert (H : In (EvGetIds T0 (Some "page2") (Raise server_error))
                 (events_of (sync env_second_page_down config T0 (fresh ∅))))
    by (vm_compute; tauto).
  destruct (sync_enumeration_failure env_second_page_down config T0 (fresh ∅)
              T0 (Some "page2") server_error H) as (_ & Ha & Hr).
  split; [exact H|]. split.
  - rewrite Ha. vm_compute. reflexivity.
  - rewrite Hr. vm_compute. reflexivity.
Defined.

Lemma sync_raises_before_the_loop_witness :
  res_of (sync env_token_rejected config T0 (fresh ∅)) = Raise unauthorized
  /\ (events_of (sync env_token_rejected config T0 (fresh ∅))
        = [EvTargetHandler (Some unauthorized)]
      \/ events_of (sync env_token_rejected config T0 (fresh ∅))
         = [EvTargetHandler None; EvGetOauthToken (Raise unauthorized)]).
Proof.
  assert (H : res_of (sync env_token_rejected config T0 (fresh ∅)) = Raise unauthorized)
    by (vm_compute; reflexivity).
  split; [exact H|].
  exact (proj1 (sync_raises_before_the_loop env_token_rejected config T0 (fresh ∅))
               unauthorized H).
Defined.

Lemma run_resumes_witness :
  res_of (get_last_update_time env_in_order (target_implementation config) (fresh ∅))
    = Ok default_last_update_time
  /\ resumes default_last_update_time (events_of (run env_in_order 2 config (fresh ∅))).
Proof.
  assert (H : res_of (get_last_update_time env_in_order (target_implementation config)
                        (fresh ∅)) = Ok default_last_update_time)
    by (vm_compute; reflexivity).
  split; [exact H|].
  exact (run_resumes env_in_order 2 config (fresh ∅) default_last_update_time H).
Defined.

Lemma run_once_after_failure_witness :
  res_of (sync env_enumeration_down config T0
            (state_of (datetime_utcnow env_enumeration_down (fresh ∅))))
    = Ok (T0, Some server_error)
  /\ res_of (run_once env_enumeration_down config T0 (fresh ∅)) = Ok T0
  /\ sleeps (events_of (run_once env_enumeration_down config T0 (fresh ∅))) = [seconds 10].
Proof.
  assert (H : res_of (sync env_enumeration_down config T0
                        (state_of (datetime_utcnow env_enumeration_down (fresh ∅))))
              = Ok (T0, Some server_error)) by (vm_compute; reflexivity).
  destruct (run_once_after_failure env_enumeration_down config T0 (fresh ∅) T0
              server_error H) as (Hr & Hevs).
  split; [exact H|]. split; [exact Hr|]. rewrite Hevs. vm_compute. reflexivity.
Defined.

Lemma run_once_after_success_witness :
  res_of (datetime_utcnow env_no_change (fresh ∅)) = Ok noon
  /\ res_of (sync env_no_change config T0 (state_of (datetime_utcnow env_no_change (fresh ∅))))
     = Ok (noon, None)
  /\ in_range 0 (to_micro noon + polling_frequency config) (to_micro datetime_max) = true
  /\ res_of (run_once env_no_change config T0 (fresh ∅)) = Ok noon
  /\ sleeps (events_of (run_once env_no_change config T0 (fresh ∅))) = [seconds 60].
Proof.
  assert (H1 : res_of (datetime_utcnow env_no_change (fresh ∅)) = Ok noon)
    by (vm_compute; reflexivity).
  assert (H2 : res_of (sync env_no_change config T0
                         (state_of (datetime_utcnow env_no_change (fresh ∅))))
               = Ok (noon, None)) by (vm_compute; reflexivity).
  assert (H3 : res_of (datetime_utcnow env_no_change
                         (state_of (sync env_no_change config T0
                                      (state_of (datetime_utcnow env_no_change (fresh ∅))))))
               = Ok noon) by (vm_compute; reflexivity).
  assert (H4 : in_range 0 (to_micro noon + polling_frequency config)
                          (to_micro datetime_max) = true) by (vm_compute; reflexivity).
  destruct (run_once_after_success env_no_change config T0 (fresh ∅) noon noon noon
              H1 H2 H3 H4) as (Hr & Hevs & _).
  split; [exact H1|]. split; [exact H2|]. split; [exact H4|]. split; [exact Hr|].
  rewrite Hevs. vm_compute. reflexivity.
Defined.

Lemma run_appends_lines_witness :
  saved (events_of (run env_in_order 2 config (fresh ∅))) = [half_past; five_past]
  /\ files (state_of (run env_in_order 2 config (fresh ∅))) !! checkpoint_path
     = Some ("2020-03-01T12:00:00.500000" +:+ String LF ""
             +:+ "2020-03-01T12:00:05" +:+ String LF "").
Proof.
  assert (H : saved (events_of (run env_in_order 2 config (fresh ∅)))
              = [half_past; five_past]) by (vm_compute; reflexivity).
  split; [exact H|].
  destruct (run_appends_lines env_in_order 2 config (fresh ∅)) as (_ & _ & Hfile).
  change checkpoint_path with (tracking_file env_in_order (target_implementation config)).
  rewrite Hfile by (rewrite H; discriminate). rewrite H. vm_compute. reflexivity.
Defined.

Lemma restart_resumes_witness :
  ends_lines (default "" (files (fresh ∅)
                            !! tracking_file env_in_order (target_implementation config)))
    = true
  /\ forallb valid_datetime (clock_readings (events_of (run env_in_order 2 config (fresh ∅))))
     = true
  /\ last (saved (events_of (run env_in_order 2 config (fresh ∅)))) = Some five_past
  /\ res_of (get_last_update_time env_in_order (target_implementation config)
               (state_of (run env_in_order 2 config (fresh ∅)))) = Ok five_past.
Proof.
  assert (H1 : ends_lines (default "" (files (fresh ∅)
                 !! tracking_file env_in_order (target_implementation config))) = true)
    by (vm_compute; reflexivity).
  assert (H2 : forallb valid_datetime
                 (clock_readings (events_of (run env_in_order 2 config (fresh ∅)))) = true)
    by (vm_compute; reflexivity).
  assert (H3 : last (saved (events_of (run env_in_order 2 config (fresh ∅))))
               = Some five_past) by (vm_compute; reflexivity).
  split; [exact H1|]. split; [exact H2|]. split; [exact H3|].
  exact (restart_resumes env_in_order 2 config (fresh ∅) five_past H1 H2 H3).
Defined.

Lemma save_keeps_other_checkpoints_witness :
  "example" <> "other"
  /\ res_of (get_last_update_time env_no_change "other"
               (state_of (save_last_update_time env_no_change noon "example"
                            (fresh {[ "/home/connector/.panopto-connector.other"
                                      := two_lines ]}))))
     = Ok (mk_datetime 2020 1 2 3 4 5 6).
Proof.
  assert (H : "example" <> "other") by discriminate.
  split; [exact H|].
  destruct (save_keeps_other_checkpoints env_no_change noon "example" "other"
              (fresh {[ "/home/connector/.panopto-connector.other" := two_lines ]}) H)
    as (_ & _ & Hload).
  rewrite Hload. vm_compute. reflexivity.
Defined.

Lemma load_save_load_witness :
  let s := fresh {[ checkpoint_path :=
                      "2020-01-02T03:04:05.500-08:00" +:+ String LF "" ]} in
  let w0 := mk_datetime_tz 2020 1 2 3 4 5 500000 (Some (- seconds 28800)) in
  res_of (get_last_update_time env_no_change "example" s) = Ok w0
  /\ ends_lines (default "" (files s !! tracking_file env_no_change "example")) = true
  /\ files (state_of (save_last_update_time env_no_change w0 "example" s))
       !! checkpoint_path
     = Some ("2020-01-02T03:04:05.500-08:00" +:+ String LF ""
             +:+ "2020-01-02T03:04:05.500000-08:00" +:+ String LF "")
  /\ res_of (get_last_update_time env_no_change "example"
               (state_of (save_last_update_time env_no_change w0 "example" s))) = Ok w0.
Proof.
  cbv zeta.
  assert (H1 : res_of (get_last_update_time env_no_change "example"
                         (fresh {[ checkpoint_path :=
                                     "2020-01-02T03:04:05.500-08:00" +:+ String LF "" ]}))
               = Ok (mk_datetime_tz 2020 1 2 3 4 5 500000 (Some (- seconds 28800))))
    by (vm_compute; reflexivity).
  assert (H2 : ends_lines
                 (default "" (files (fresh {[ checkpoint_path :=
                                  "2020-01-02T03:04:05.500-08:00" +:+ String LF "" ]})
                              !! tracking_file env_no_change "example")) = true)
    by (vm_compute; reflexivity).
  split; [exact H1|]. split; [exact H2|]. split; [vm_compute; reflexivity|].
  exact (load_save_load env_no_change _ "example" _ H1 H2).
Defined.

Lemma update_time_ignores_fraction_witness :
  all_chars (fun c => negb (ascii_eqb c ".")) "2020-03-01T10:00:00" = true
  /\ update_time_of (mk_update "a" "2020-03-01T10:00:00.123Z") = Some T1.
Proof.
  assert (H : all_chars (fun c => negb (ascii_eqb c ".")) "2020-03-01T10:00:00" = true)
    by (vm_compute; reflexivity).
  split; [exact H|].
  change "2020-03-01T10:00:00.123Z" with ("2020-03-01T10:00:00" +:+ String "." "123Z").
  rewrite (update_time_ignores_fraction "a" "2020-03-01T10:00:00" "123Z" H).
  vm_compute. reflexivity.
Defined.

End MoreExamples.
